(** * Viewers of openapi-to-graphql: [auth_builder.ts]

    A shallow embedding of
    [packages/openapi-to-graphql/src/auth_builder.ts] and the properties
    of the viewers it builds: how viewer names are allocated, what the
    argument maps look like, and what the resolve functions return and
    touch.

    JavaScript objects whose key order is observable ([queryFields],
    [data.security], [scheme.parameters], the [args] maps, the returned
    [results]) are association lists in property order; tables whose
    order is never observed ([usedViewerNames], [data.saneMap]) are
    [gmap]s.  The object [data] is shared and mutable, so every function
    that receives it is written in state-passing style over it; a
    [TypeError] raised by reading a property of [undefined] is the
    [None] outcome.

    Functions that [auth_builder.ts] imports are not part of it:
    [Oas3Tools.sanitize], [createDataDef] and [getGraphQLType] are
    parameters of the development, and [Oas3Tools.sanitizeAndStore],
    [handleWarning] and [sortObject] follow the description the
    specification gives of them. *)

From stdpp Require Import base option list strings gmap pretty sorting.

Local Open Scope string_scope.
Local Open Scope list_scope.
Local Set Warnings "-register-all,-clear-no-such-hyp".

(** ** JavaScript objects with string keys *)

(** Property names are taken to be ordinary names, not canonical array
    indices, and not names found on [Object.prototype]: for those,
    [for ... in] enumerates own properties in insertion order, an
    assignment to an existing property keeps its place and an assignment
    to a new one appends it.  (The registry [usedViewerNames], whose
    names are auth kinds taken from the input, is not such an object:
    [allocate] accounts for the names it inherits.) *)
Module JsObject.
Section ops.
Context {V : Type}.

Definition t := list (string * V).

(** [{}] *)
Definition empty : t := [].

(** [o[k]], with [None] for [undefined] *)
Fixpoint get (k : string) (o : t) : option V :=
  match o with
  | [] => None
  | (k', v) :: o' => if decide (k = k') then Some v else get k o'
  end.

(** [o[k] = v] *)
Fixpoint set (k : string) (v : V) (o : t) : t :=
  match o with
  | [] => [(k, v)]
  | (k', v') :: o' =>
      if decide (k = k') then (k, v) :: o' else (k', v') :: set k v o'
  end.

(** the names [for (k in o)] visits, in order *)
Definition keys (o : t) : list string := o.*1.

(** [Object.assign(target, source)] *)
Definition assign (target source : t) : t :=
  foldl (λ acc kv, set kv.1 kv.2 acc) target source.

(** An association list is an object when no name occurs twice. *)
Definition wf (o : t) : Prop := NoDup (keys o).
End ops.
Global Arguments t : clear implicits.
End JsObject.

(** ** Values handed to and returned by resolve functions *)

Inductive JsValue : Type :=
| JsUndefined
| JsString (s : string)
| JsObj (o : list (string * JsValue)).

(** ** Strings, numbers and warnings *)

(** the line break of a template literal *)
Definition newline : string := String (Ascii.ascii_of_nat 10) "".

(** [String(n)] for a natural number [n], as used by [viewerName += n]. *)
Definition numberToString (n : nat) : string := pretty n.

(** One call of [handleWarning({ typeKey, culprit, data, log })]. *)
Record Warning := mkWarning { typeKey : string; culprit : string }.

(** ** Types imported by [auth_builder.ts] *)

(** [SecuritySchemeObject] of [types/oas3]: the two properties read
    here.  [type] is a plain string (the code assigns ['basicAuth'] to a
    variable initialised from it); [scheme] may be absent. *)
Record SecuritySchemeObject := mkSecuritySchemeObject {
  type : string;
  scheme : option string
}.

(** [Oas3]: only [info.title] is read. *)
Record Oas3 := mkOas3 { info_title : string }.

(** The GraphQL types that occur in argument maps: [GraphQLString],
    [new GraphQLNonNull(t)], and whatever [getGraphQLType] hands back. *)
Inductive GraphQLType (T : Type) : Type :=
| GraphQLString
| GraphQLNonNull (t : GraphQLType T)
| GraphQLBuilt (t : T).
Global Arguments GraphQLString {T}.
Global Arguments GraphQLNonNull {T} t.
Global Arguments GraphQLBuilt {T} t.

(** [new GraphQLObjectType({ name, description, fields: () => ... })] *)
Record GraphQLObjectType (Field : Type) := mkGraphQLObjectType {
  name : string;
  ot_description : string;
  fields : unit → JsObject.t Field
}.
Global Arguments mkGraphQLObjectType {Field}.
Global Arguments name {Field}.
Global Arguments ot_description {Field}.
Global Arguments fields {Field}.

(** the reserved property of a resolver's return value *)
Definition reservedKey : string := "_openapiToGraphql".

(** The names that an object created by [{}] inherits from
    [Object.prototype].  [k in o] holds for each of them whether or not
    [o] has a property [k] of its own, and [o[k]] then is a function
    (the prototype itself for ["__proto__"]), never an array. *)
Definition objectPrototypeKeys : list string :=
  ["constructor"; "__defineGetter__"; "__defineSetter__"; "hasOwnProperty";
   "__lookupGetter__"; "__lookupSetter__"; "isPrototypeOf";
   "propertyIsEnumerable"; "toString"; "valueOf"; "__proto__";
   "toLocaleString"].

(** ** Computations over the shared [data] *)

(** A computation reads and updates the state [S] and either returns a
    value or throws ([None]). *)
Definition M (S A : Type) : Type := S → option (A * S).

Definition ret {S A : Type} (a : A) : M S A := λ s, Some (a, s).

Definition bind {S A B : Type} (m : M S A) (k : A → M S B) : M S B :=
  λ s, match m s with
       | Some (a, s') => k a s'
       | None => None
       end.

(** a call that cannot throw *)
Definition call {S A : Type} (f : S → A * S) : M S A := λ s, Some (f s).

(** a step that throws a [TypeError] when [o] is [None], such as
    reading a property of [undefined] *)
Definition defined {S A : Type} (o : option A) : M S A :=
  λ s, match o with
       | Some a => Some (a, s)
       | None => None
       end.

Notation "'let!' x ':=' m 'in' k" := (bind m (λ x, k))
  (at level 10, x name, m at level 100, k at level 200, only parsing).

(** [for (k in ...) { acc = body(acc, k) }] *)
Fixpoint forIn {S K A : Type} (body : A → K → M S A) (ks : list K) (acc : A)
  : M S A :=
  match ks with
  | [] => ret acc
  | k :: ks' => let! acc' := body acc k in forIn body ks' acc'
  end.

(** ** The viewer builder *)

Section AuthBuilder.
Context {Field SchemaObject DataDefinition BuiltType Rest : Type}.

(** [ProcessedSecurityScheme] of [types/preprocessing_data] *)
Record ProcessedSecurityScheme := mkProcessedSecurityScheme {
  rawName : string;
  def : SecuritySchemeObject;
  parameters : JsObject.t string;
  schema : SchemaObject;
  oas : Oas3
}.

(** [PreprocessingData]: [security] is read here; [saneMap] is written
    by [sanitizeAndStore], [warnings] (the report of [data.options]) by
    [handleWarning], and [rest] stands for the tables that only
    [createDataDef] and [getGraphQLType] maintain. *)
Record PreprocessingData := mkPreprocessingData {
  security : JsObject.t ProcessedSecurityScheme;
  saneMap : gmap string string;
  warnings : list Warning;
  rest : Rest
}.

(** an entry [{ type }] of an argument map *)
Record ArgConfig := mkArgConfig { arg_type : GraphQLType BuiltType }.

Definition Args := JsObject.t ArgConfig.

(** [ResolveFunction]: [(root, args, ctx) => ...], running against the
    [data] its closure captured. *)
Definition ResolveFunction : Type :=
  JsValue → JsValue → JsValue → PreprocessingData → JsValue * PreprocessingData.

Record Viewer := mkViewer {
  viewer_type : GraphQLObjectType Field;
  resolve : ResolveFunction;
  args : Args;
  description : string
}.

(** [Oas3Tools.sanitize], [createDataDef] of the preprocessor and
    [getGraphQLType] of the schema builder are defined outside
    [auth_builder.ts]; the development is parametric in them.  The last
    two receive [data] and may update it. *)
Variable sanitize : string → string.
Variable createDataDef :
  string → SchemaObject → bool → PreprocessingData →
  DataDefinition * PreprocessingData.
Variable getGraphQLType :
  DataDefinition → list Oas3 → bool → PreprocessingData →
  BuiltType * PreprocessingData.

(** Modelled from the spec: [Oas3Tools.sanitizeAndStore] is not in
    [auth_builder.ts].  The spec describes sanitize-and-register as
    normalising a raw name into an identifier-safe form while recording
    a reverse mapping, in the given table, from which the raw name can
    be recovered. *)
Definition sanitizeAndStore (str : string) (data : PreprocessingData)
  : string * PreprocessingData :=
  let clean := sanitize str in
  (clean,
   mkPreprocessingData (security data) (<[clean := str]> (saneMap data))
     (warnings data) (rest data)).

(** Modelled from the spec: [handleWarning] of [utils] is not in
    [auth_builder.ts].  The spec describes it as a non-fatal
    diagnostics channel; each call records one warning and returns. *)
Definition handleWarning (w : Warning) (data : PreprocessingData)
  : unit * PreprocessingData :=
  (tt,
   mkPreprocessingData (security data) (saneMap data)
     (warnings data ++ [w]) (rest data)).

(** Modelled from the spec: [sortObject] of [utils] is not in
    [auth_builder.ts].  The spec describes it as the utility that sorts
    a mapping by key, alphabetically: the names are sorted and the
    properties are copied to a new object in that order. *)
Definition sortObject {V : Type} (o : JsObject.t V) : JsObject.t V :=
  foldl (λ r k, match JsObject.get k o with
                | Some v => JsObject.set k v r
                | None => r
                end)
    JsObject.empty (merge_sort String.le (JsObject.keys o)).

(** [String(scheme)] *)
Definition String_of_scheme (s : option string) : string :=
  match s with
  | Some s => s
  | None => "undefined"
  end.

(** Gets the viewer Object, resolve function, and arguments.  The
    result is [None] when [data.security[protocolName]] is [undefined]
    and [scheme.rawName] throws. *)
Definition getViewerOT (name protocolName type : string)
    (queryFields : JsObject.t Field) (data : PreprocessingData)
    (oass : list Oas3) : option Viewer :=
  let scheme := JsObject.get protocolName (security data) in
  let resolve : ResolveFunction := λ root args ctx data,
    let '(clean, data) := sanitizeAndStore protocolName data in
    let security := JsObj [(clean, args)] in
    (JsObj [(reservedKey, JsObj [("security", security)])], data) in
  let args : Args :=
    match scheme with
    | Some scheme =>
        foldl (λ args parameterName,
                 JsObject.set parameterName
                   (mkArgConfig (GraphQLNonNull GraphQLString)) args)
          JsObject.empty (JsObject.keys (parameters scheme))
    | None => JsObject.empty
    end in
  match scheme with
  | None => None
  | Some scheme =>
      let '(typeDescription, description) :=
        if decide (length oass = 1) then
          ("A viewer for the security protocol: '" +:+ rawName scheme +:+ "'",
           "A viewer that wraps all operations authenticated via " +:+ type)
        else
          ("A viewer for the security protocol '" +:+ rawName scheme +:+ "' "
             +:+ "in " +:+ info_title (oas scheme),
           "A viewer that wraps all operations authenticated via " +:+ type
             +:+ newline +:+ newline
             +:+ "For the security scheme: " +:+ info_title (oas scheme)
             +:+ " " +:+ protocolName) in
      Some (mkViewer
              (mkGraphQLObjectType name typeDescription (λ _, queryFields))
              resolve args description)
  end.

(** the body of the loop over [data.security] in [getViewerAnyAuthOT] *)
Definition anyAuthArg (oass : list Oas3) (args : Args) (protocolName : string)
  : M PreprocessingData Args :=
  let! scheme := (λ data, defined (JsObject.get protocolName (security data)) data) in
  let! def := call (createDataDef protocolName (schema scheme) true) in
  let! type := call (getGraphQLType def oass true) in
  let! clean := call (sanitizeAndStore protocolName) in
  ret (JsObject.set clean (mkArgConfig (GraphQLBuilt type)) args).

(** Create an object containing an AnyAuth viewer, its resolve function,
    and its args. *)
Definition getViewerAnyAuthOT (name : string) (queryFields : JsObject.t Field)
    (oass : list Oas3) : M PreprocessingData Viewer :=
  let! args := (λ data,
    forIn (anyAuthArg oass) (JsObject.keys (security data)) JsObject.empty data) in
  let args := sortObject args in
  let resolve : ResolveFunction := λ root args ctx data,
    (JsObj [(reservedKey, JsObj [("security", args)])], data) in
  ret (mkViewer
         (mkGraphQLObjectType name
            "Warning: Not every request will work with this viewer type"
            (λ _, queryFields))
         resolve args
         ("A viewer that wraps operations for all available " +:+
          "authentication mechanisms")).

(** the locals of [createAndLoadViewer] that the loop updates *)
Record Locals := mkLocals {
  results : JsObject.t Viewer;
  usedViewerNames : gmap string (list string);
  anyAuthFields : JsObject.t Field
}.

(** the [if (type === 'http')] block: the auth kind of a scheme *)
Definition authKind (d : SecuritySchemeObject) : M PreprocessingData string :=
  let type := type d in
  if decide (type = "http") then
    let scheme := scheme d in
    if decide (scheme = Some "basic") then ret "basicAuth"
    else
      let! _ := call (handleWarning
                        (mkWarning "UNSUPPORTED_HTTP_AUTH_SCHEME"
                           (String_of_scheme scheme))) in
      ret type
  else ret type.

(** [Oas3Tools.sanitize(`viewer ${type}`)], or the mutation variant *)
Definition baseViewerName (isMutation : bool) (type : string) : string :=
  if negb isMutation then sanitize ("viewer " +:+ type)
  else sanitize ("mutation viewer " +:+ type).

(** the naming of lines 102 to 112: the name given out and the updated
    registry.  [usedViewerNames] starts as [{}], so
    [type in usedViewerNames] holds for a [type] that has a list in the
    table and also for a [type] that names a property of
    [Object.prototype].  For the latter no list is created, and
    [usedViewerNames[type].indexOf] is not a function: the call throws
    a [TypeError], the [None] outcome. *)
Definition allocate (isMutation : bool) (type : string)
    (usedViewerNames : gmap string (list string))
  : option (string * gmap string (list string)) :=
  let viewerName := baseViewerName isMutation type in
  let usedViewerNames :=
    if bool_decide (is_Some (usedViewerNames !! type))
       || bool_decide (type ∈ objectPrototypeKeys)
    then usedViewerNames
    else <[type := []]> usedViewerNames in
  match usedViewerNames !! type with
  | None => None
  | Some names =>
      let viewerName :=
        if bool_decide (viewerName ∈ names)
        then viewerName +:+ numberToString (length names + 1)
        else viewerName in
      Some (viewerName, <[type := (names ++ [viewerName])]> usedViewerNames)
  end.

(** one iteration of [for (let protocolName in queryFields)];
    [protocolFields] is [queryFields[protocolName]] *)
Definition viewerFor (isMutation : bool) (oass : list Oas3) (l : Locals)
    (entry : string * JsObject.t Field) : M PreprocessingData Locals :=
  let '(protocolName, protocolFields) := entry in
  let anyAuthFields := JsObject.assign (anyAuthFields l) protocolFields in
  let! scheme := (λ data, defined (JsObject.get protocolName (security data)) data) in
  let! type := authKind (def scheme) in
  let! allocated := defined (allocate isMutation type (usedViewerNames l)) in
  let '(viewerName, usedViewerNames) := allocated in
  let! viewer := (λ data,
    defined (getViewerOT viewerName protocolName type protocolFields data oass)
      data) in
  ret (mkLocals (JsObject.set viewerName viewer (results l))
         usedViewerNames anyAuthFields).

(** the fixed name of the AnyAuth viewer *)
Definition anyAuthObjectName (isMutation : bool) : string :=
  if negb isMutation then "viewerAnyAuth" else "mutationViewerAnyAuth".

(** Load the field object in the appropriate root object. *)
Definition createAndLoadViewer (queryFields : JsObject.t (JsObject.t Field))
    (isMutation : bool) (oass : list Oas3)
  : M PreprocessingData (JsObject.t Viewer) :=
  let! l := forIn (viewerFor isMutation oass) queryFields
              (mkLocals JsObject.empty ∅ JsObject.empty) in
  let anyAuthObjectName := anyAuthObjectName isMutation in
  let! viewer := getViewerAnyAuthOT anyAuthObjectName (anyAuthFields l) oass in
  ret (JsObject.set anyAuthObjectName viewer (results l)).

End AuthBuilder.

(** ** A concrete sanitizer and concrete collaborators *)

(** Characters that may occur in an identifier. *)
Definition isIdentifierChar (c : Ascii.ascii) : bool :=
  let n := Ascii.nat_of_ascii c in
  ((48 <=? n) && (n <=? 57) || (65 <=? n) && (n <=? 90)
   || (97 <=? n) && (n <=? 122) || (n =? 95))%nat.

Definition toUpperCase (c : Ascii.ascii) : Ascii.ascii :=
  let n := Ascii.nat_of_ascii c in
  if ((97 <=? n) && (n <=? 122))%nat then Ascii.ascii_of_nat (n - 32) else c.

Fixpoint camelCaseFrom (upper : bool) (s : string) : string :=
  match s with
  | "" => ""
  | String c s' =>
      if isIdentifierChar c
      then String (if upper then toUpperCase c else c) (camelCaseFrom false s')
      else camelCaseFrom true s'
  end.

(** Modelled from the spec: [Oas3Tools.sanitize] is not in
    [auth_builder.ts], and the spec fixes only that it turns a raw name
    into an identifier-safe one.  This instance drops every character
    that cannot occur in an identifier and capitalises the character
    after it, the convention of the fixed names ["viewerAnyAuth"] and
    ["mutationViewerAnyAuth"] in the source.  It serves to run the
    parametric definitions on concrete inputs. *)
Definition camelCaseSanitize (s : string) : string := camelCaseFrom false s.

Module Example.

(** Collaborators that build nothing: the data definition of a scheme
    is its reference name, its type is that name again, and [data] is
    left as it is. *)
Definition Data : Type := @PreprocessingData unit unit.

Definition createDataDef (fromRef : string) (schema : unit) (isInputType : bool)
    (data : Data) : string * Data := (fromRef, data).

Definition getGraphQLType (def : string) (oass : list Oas3) (isMutation : bool)
    (data : Data) : string * Data := (def, data).

Definition createAndLoadViewer :=
  @createAndLoadViewer unit unit string string unit
    camelCaseSanitize createDataDef getGraphQLType.

Definition oas : Oas3 := mkOas3 "Example API".

Definition entry (rawName type : string) (scheme : option string)
    (parameters : JsObject.t string) : ProcessedSecurityScheme :=
  mkProcessedSecurityScheme rawName (mkSecuritySchemeObject type scheme)
    parameters tt oas.

Definition data (security : JsObject.t ProcessedSecurityScheme) : Data :=
  mkPreprocessingData security ∅ [] tt.

(** An API with three API keys, basic authentication and a digest
    scheme; every scheme guards one operation. *)
Definition security1 : JsObject.t ProcessedSecurityScheme :=
  [("key1", entry "key1" "apiKey" None [("apiKey", "key1_apiKey")]);
   ("basic", entry "basic" "http" (Some "basic")
               [("username", "basic_username");
                ("password", "basic_password")]);
   ("digest", entry "digest" "http" (Some "digest") []);
   ("key2", entry "key2" "apiKey" None [("apiKey", "key2_apiKey")]);
   ("key3", entry "key3" "apiKey" None [("apiKey", "key3_apiKey")])].

Definition queryFields1 : JsObject.t (JsObject.t unit) :=
  [("key1", [("getA", tt)]); ("basic", [("getB", tt)]);
   ("digest", [("getC", tt)]); ("key2", [("getD", tt)]);
   ("key3", [("getE", tt)])].

Definition schemes1 : list ProcessedSecurityScheme := security1.*2.

(** Only the first API key guards an operation. *)
Definition queryFields1' : JsObject.t (JsObject.t unit) :=
  [("key1", [("getA", tt)])].

(** The same schemes declared in another order. *)
Definition security1' : JsObject.t ProcessedSecurityScheme :=
  reverse security1.

(** Schemes whose types are ["apiKey"], ["apiKey"], ["apiKey2"] and
    ["anyAuth"]. *)
Definition security2 : JsObject.t ProcessedSecurityScheme :=
  [("a", entry "a" "apiKey" None [("apiKey", "a_apiKey")]);
   ("b", entry "b" "apiKey" None [("apiKey", "b_apiKey")]);
   ("c", entry "c" "apiKey2" None []);
   ("d", entry "d" "anyAuth" None [])].

Definition queryFields2 : JsObject.t (JsObject.t unit) :=
  [("a", [("getA", tt)]); ("b", [("getB", tt)]); ("c", [("getC", tt)]);
   ("d", [("getD", tt)])].

(** Two API keys whose names have the same sanitized form. *)
Definition security3 : JsObject.t ProcessedSecurityScheme :=
  [("api-key", entry "api-key" "apiKey" None [("apiKey", "api_key_apiKey")]);
   ("api.key", entry "api.key" "apiKey" None [("apiKey", "api_key_apiKey")])].

Definition queryFields3 : JsObject.t (JsObject.t unit) :=
  [("api-key", [("getA", tt)]); ("api.key", [("getB", tt)])].

(** One API key scheme named ["apiKeyAuth"]. *)
Definition security4 : JsObject.t ProcessedSecurityScheme :=
  [("apiKeyAuth", entry "apiKeyAuth" "apiKey" None
                    [("apiKey", "apiKeyAuth_apiKey")])].

(** An API key and a scheme whose type is the name of a property of
    [Object.prototype]. *)
Definition security5 : JsObject.t ProcessedSecurityScheme :=
  [("key1", entry "key1" "apiKey" None [("apiKey", "key1_apiKey")]);
   ("odd", entry "odd" "constructor" None [])].

Definition queryFields5 : JsObject.t (JsObject.t unit) :=
  [("key1", [("getA", tt)]); ("odd", [("getB", tt)])].

End Example.

(** ** Vocabulary of the statements *)

(** the auth kind that [authKind] settles on *)
Definition classify (d : SecuritySchemeObject) : string :=
  if decide (type d = "http") then
    if decide (scheme d = Some "basic") then "basicAuth" else type d
  else type d.

(** the schemes [authKind] warns about: [http] with a scheme other
    than ["basic"] *)
Definition unsupported (d : SecuritySchemeObject) : Prop :=
  type d = "http" ∧ scheme d ≠ Some "basic".

Definition unsupportedWarning (d : SecuritySchemeObject) : Warning :=
  mkWarning "UNSUPPORTED_HTTP_AUTH_SCHEME" (String_of_scheme (scheme d)).

(** the warnings of a sequence of schemes, one per unsupported one *)
Definition unsupportedWarnings (ds : list SecuritySchemeObject) : list Warning :=
  unsupportedWarning <$> filter unsupported ds.

(** the [i]-th name (counting from 0) handed out in a kind whose base
    name is [base]: [base], [base2], [base3], ... *)
Definition nthViewerName (base : string) (i : nat) : string :=
  match i with
  | 0 => base
  | S _ => base +:+ numberToString (i + 1)
  end.

(** what [allocate] returns when it returns: the base name of the
    kind, followed by the length of the kind's list plus one when the
    list already holds the base name, and the registry with that name
    appended to the list of the kind *)
Definition allocation (sanitize : string → string) (isMutation : bool)
    (type : string) (used : gmap string (list string))
  : string * gmap string (list string) :=
  let base := baseViewerName sanitize isMutation type in
  let names := default [] (used !! type) in
  let viewerName :=
    if bool_decide (base ∈ names)
    then base +:+ numberToString (length names + 1)
    else base in
  (viewerName, <[type := names ++ [viewerName]]> used).

(** the allocations for a sequence of kinds: the names in order and
    the final registry *)
Fixpoint allocateAll (sanitize : string → string) (isMutation : bool)
    (types : list string) (used : gmap string (list string))
  : list string * gmap string (list string) :=
  match types with
  | [] => ([], used)
  | type :: types' =>
      let '(viewerName, used') := allocation sanitize isMutation type used in
      let '(viewerNames, used'') :=
        allocateAll sanitize isMutation types' used' in
      (viewerName :: viewerNames, used'')
  end.

(** the viewer names [createAndLoadViewer] allocates for protocols
    whose schemes are [schs], in the order of [queryFields], when every
    allocation returns *)
Definition viewerNames {SchemaObject : Type} (sanitize : string → string)
    (isMutation : bool) (schs : list (@ProcessedSecurityScheme SchemaObject))
  : list string :=
  (allocateAll sanitize isMutation (classify ∘ def <$> schs) ∅).1.

(** The viewer names of different kinds cannot coincide, and none is
    the name of the AnyAuth viewer. *)
Definition kindsSeparated (sanitize : string → string) (isMutation : bool)
    (types : list string) : Prop :=
  (∀ type1 type2 i j,
     type1 ∈ types → type2 ∈ types → type1 ≠ type2 →
     nthViewerName (baseViewerName sanitize isMutation type1) i
     ≠ nthViewerName (baseViewerName sanitize isMutation type2) j)
  ∧ (∀ type i,
       type ∈ types →
       nthViewerName (baseViewerName sanitize isMutation type) i
       ≠ anyAuthObjectName isMutation).

(** A test that is sufficient for [kindsSeparated]: no base name is a
    prefix of the base name of another kind or of the AnyAuth name. *)
Definition prefixFree (sanitize : string → string) (isMutation : bool)
    (types : list string) : bool :=
  forallb (λ type1,
      negb (String.prefix (baseViewerName sanitize isMutation type1)
              (anyAuthObjectName isMutation))
      && forallb (λ type2,
             bool_decide (type1 = type2)
             || negb (String.prefix
                        (baseViewerName sanitize isMutation type1)
                        (baseViewerName sanitize isMutation type2)))
           types)
    types.

(** the values of [type] in a Security Scheme Object of OpenAPI 3.0 *)
Definition securitySchemeTypes : list string :=
  ["apiKey"; "http"; "oauth2"; "openIdConnect"].

(** An entry of [data.security] is well-formed when the [type] of its
    definition is one of them. *)
Definition wellFormed {SchemaObject : Type}
    (sch : @ProcessedSecurityScheme SchemaObject) : Prop :=
  type (def sch) ∈ securitySchemeTypes.

#[global] Instance wellFormed_dec {SchemaObject : Type}
    (sch : @ProcessedSecurityScheme SchemaObject) : Decision (wellFormed sch) :=
  list_elem_of_dec (type (def sch)) securitySchemeTypes.

(** the auth kinds that these types are classified to *)
Definition openApiKinds : list string :=
  ["apiKey"; "basicAuth"; "http"; "oauth2"; "openIdConnect"].

(** The auth kind of [sch] does not name a property of
    [Object.prototype]. *)
Definition plainKind {SchemaObject : Type}
    (sch : @ProcessedSecurityScheme SchemaObject) : Prop :=
  classify (def sch) ∉ objectPrototypeKeys.

#[global] Instance plainKind_dec {SchemaObject : Type}
    (sch : @ProcessedSecurityScheme SchemaObject) : Decision (plainKind sch) :=
  not_dec (list_elem_of_dec (classify (def sch)) objectPrototypeKeys).

(** in a registry of this shape the list of every kind is [base],
    [base2], ..., in this order *)
Definition numbered (sanitize : string → string) (isMutation : bool)
    (used : gmap string (list string)) : Prop :=
  ∀ type names, used !! type = Some names →
    names = nthViewerName (baseViewerName sanitize isMutation type)
              <$> seq 0 (length names).

(** a registry as a run from [{}] builds it: no kind that names a
    property of [Object.prototype] has a list *)
Definition ownKinds (used : gmap string (list string)) : Prop :=
  ∀ type, is_Some (used !! type) → type ∉ objectPrototypeKeys.

(** [data] after the warnings [ws] have been recorded *)
Definition addWarnings {SchemaObject Rest : Type} (ws : list Warning)
    (data : @PreprocessingData SchemaObject Rest) : PreprocessingData :=
  mkPreprocessingData (security data) (saneMap data) (warnings data ++ ws)
    (rest data).

(** [data] after [sanitizeAndStore] has registered [str] *)
Definition registered {SchemaObject Rest : Type} (sanitize : string → string)
    (str : string) (data : @PreprocessingData SchemaObject Rest)
  : PreprocessingData :=
  mkPreprocessingData (security data) (<[sanitize str := str]> (saneMap data))
    (warnings data) (rest data).

(** the value a resolver returns for the credentials [security] *)
Definition securityContext (security : JsValue) : JsValue :=
  JsObj [(reservedKey, JsObj [("security", security)])].

(** the argument map of the AnyAuth viewer before it is sorted: one
    assignment per protocol, under its sanitized name *)
Definition unsortedArgs {BuiltType : Type} (sanitize : string → string)
    (ps : list string) (types : list BuiltType) : JsObject.t ArgConfig :=
  foldl (λ acc pt, JsObject.set (sanitize pt.1)
                     (mkArgConfig (GraphQLBuilt pt.2)) acc)
    JsObject.empty (zip ps types).

(** [viewer] with the name of its GraphQL type replaced by [name] *)
Definition withTypeName {Field SchemaObject BuiltType Rest : Type}
    (name : string) (viewer : @Viewer Field SchemaObject BuiltType Rest)
  : Viewer :=
  mkViewer
    (mkGraphQLObjectType name (ot_description (viewer_type viewer))
       (fields (viewer_type viewer)))
    (resolve viewer) (args viewer) (description viewer).

(** how many of the first [i] schemes of [schs] are classified to the
    kind [type] *)
Definition sameKindBefore {SchemaObject : Type}
    (schs : list (@ProcessedSecurityScheme SchemaObject)) (i : nat)
    (type : string) : nat :=
  length (filter (λ t, t = type) (take i (classify ∘ def <$> schs))).

(** how many schemes of [schs] are classified to the kind [type] *)
Definition ofKind {SchemaObject : Type}
    (schs : list (@ProcessedSecurityScheme SchemaObject)) (type : string)
  : nat :=
  length (filter (λ t, t = type) (classify ∘ def <$> schs)).

(** the type that [getGraphQLType] returns in the iteration of the
    loop of [getViewerAnyAuthOT] for the protocol [protocolName] with
    the scheme [sch], when the iteration starts from [data] *)
Definition anyAuthArgType {SchemaObject DataDefinition BuiltType Rest : Type}
    (createDataDef :
       string → SchemaObject → bool → @PreprocessingData SchemaObject Rest →
       DataDefinition * @PreprocessingData SchemaObject Rest)
    (getGraphQLType :
       DataDefinition → list Oas3 → bool → @PreprocessingData SchemaObject Rest →
       BuiltType * @PreprocessingData SchemaObject Rest)
    (oass : list Oas3) (protocolName : string)
    (sch : @ProcessedSecurityScheme SchemaObject)
    (data : @PreprocessingData SchemaObject Rest) : BuiltType :=
  let '(def, data) := createDataDef protocolName (schema sch) true data in
  (getGraphQLType def oass true data).1.

(** [data] as that iteration leaves it *)
Definition anyAuthArgData {SchemaObject DataDefinition BuiltType Rest : Type}
    (sanitize : string → string)
    (createDataDef :
       string → SchemaObject → bool → @PreprocessingData SchemaObject Rest →
       DataDefinition * @PreprocessingData SchemaObject Rest)
    (getGraphQLType :
       DataDefinition → list Oas3 → bool → @PreprocessingData SchemaObject Rest →
       BuiltType * @PreprocessingData SchemaObject Rest)
    (oass : list Oas3) (protocolName : string)
    (sch : @ProcessedSecurityScheme SchemaObject)
    (data : @PreprocessingData SchemaObject Rest) : PreprocessingData :=
  let '(def, data) := createDataDef protocolName (schema sch) true data in
  registered sanitize protocolName (getGraphQLType def oass true data).2.

(** [data] as the iterations for the first [i] of [entries] leave it *)
Definition dataBefore {SchemaObject DataDefinition BuiltType Rest : Type}
    (sanitize : string → string)
    (createDataDef :
       string → SchemaObject → bool → @PreprocessingData SchemaObject Rest →
       DataDefinition * @PreprocessingData SchemaObject Rest)
    (getGraphQLType :
       DataDefinition → list Oas3 → bool → @PreprocessingData SchemaObject Rest →
       BuiltType * @PreprocessingData SchemaObject Rest)
    (oass : list Oas3)
    (entries : list (string * @ProcessedSecurityScheme SchemaObject))
    (i : nat) (data : @PreprocessingData SchemaObject Rest)
  : PreprocessingData :=
  foldl (λ data e,
           anyAuthArgData sanitize createDataDef getGraphQLType oass e.1 e.2
             data)
    data (take i entries).

(** the types of the iterations for [entries], one after the other *)
Fixpoint anyAuthArgTypes {SchemaObject DataDefinition BuiltType Rest : Type}
    (sanitize : string → string)
    (createDataDef :
       string → SchemaObject → bool → @PreprocessingData SchemaObject Rest →
       DataDefinition * @PreprocessingData SchemaObject Rest)
    (getGraphQLType :
       DataDefinition → list Oas3 → bool → @PreprocessingData SchemaObject Rest →
       BuiltType * @PreprocessingData SchemaObject Rest)
    (oass : list Oas3)
    (entries : list (string * @ProcessedSecurityScheme SchemaObject))
    (data : @PreprocessingData SchemaObject Rest) : list BuiltType :=
  match entries with
  | [] => []
  | e :: entries' =>
      anyAuthArgType createDataDef getGraphQLType oass e.1 e.2 data
      :: anyAuthArgTypes sanitize createDataDef getGraphQLType oass entries'
           (anyAuthArgData sanitize createDataDef getGraphQLType oass e.1 e.2
              data)
  end.

Module Shared.

(** Two protocols whose operations overlap: both guard [getB]; fields
    are told apart by a number. *)
Definition security : JsObject.t (@ProcessedSecurityScheme unit) :=
  [("key1", Example.entry "key1" "apiKey" None [("apiKey", "key1_apiKey")]);
   ("basic", Example.entry "basic" "http" (Some "basic")
               [("username", "basic_username");
                ("password", "basic_password")])].

Definition queryFields : JsObject.t (JsObject.t nat) :=
  [("key1", [("getA", 1); ("getB", 2)]); ("basic", [("getB", 3)])].

(** A protocol that [data.security] does not declare. *)
Definition queryFieldsUndeclared : JsObject.t (JsObject.t nat) :=
  [("key1", [("getA", 1)]); ("key9", [("getZ", 9)])].

Definition createAndLoadViewer :=
  @createAndLoadViewer nat unit string string unit
    camelCaseSanitize Example.createDataDef Example.getGraphQLType.

End Shared.

(** ** Facts about objects *)

Module JsObjectFacts.
Section facts.
Context {V : Type}.
Implicit Types (o : JsObject.t V) (k : string) (v : V).

Lemma length_keys o : length (JsObject.keys o) = length o.
Proof. unfold JsObject.keys. apply length_fmap. Qed.

Lemma get_set_eq k v o : JsObject.get k (JsObject.set k v o) = Some v.
Proof.
  induction o as [|[k' v'] o IH]; simpl; repeat case_decide; simpl;
    repeat case_decide; congruence.
Qed.

Lemma get_set_ne k k' v o :
  k ≠ k' → JsObject.get k' (JsObject.set k v o) = JsObject.get k' o.
Proof.
  intros Hne. induction o as [|[k0 v0] o IH]; simpl; repeat case_decide; simpl;
    repeat case_decide; congruence.
Qed.

Lemma get_Some_elem_of k v o : JsObject.get k o = Some v → (k, v) ∈ o.
Proof.
  induction o as [|[k' v'] o IH]; simpl; [done|].
  case_decide as Hk.
  - intros [= ->]. subst. left.
  - intros Hg. right. auto.
Qed.

Lemma get_is_Some k o : is_Some (JsObject.get k o) ↔ k ∈ JsObject.keys o.
Proof.
  unfold JsObject.keys. induction o as [|[k' v'] o IH]; simpl.
  - split; [intros [? [=]]|intros ?%elem_of_nil; done].
  - rewrite elem_of_cons. case_decide as Hk.
    + split; eauto.
    + rewrite IH. naive_solver.
Qed.

Lemma get_None k o : JsObject.get k o = None ↔ k ∉ JsObject.keys o.
Proof. rewrite <-get_is_Some, eq_None_not_Some. done. Qed.

Lemma get_elem_of k v o :
  JsObject.wf o → (k, v) ∈ o → JsObject.get k o = Some v.
Proof.
  unfold JsObject.wf, JsObject.keys.
  induction o as [|[k' v'] o IH]; simpl; [intros _ ?%elem_of_nil; done|].
  intros [Hk' Hnd]%NoDup_cons [[= -> ->]|Hin]%elem_of_cons.
  - by rewrite decide_True.
  - rewrite decide_False; [auto|].
    intros ->. apply Hk'. apply list_elem_of_fmap. by exists (k', v).
Qed.

Lemma keys_set_old k v o :
  k ∈ JsObject.keys o → JsObject.keys (JsObject.set k v o) = JsObject.keys o.
Proof.
  unfold JsObject.keys. induction o as [|[k' v'] o IH]; simpl.
  - intros ?%elem_of_nil; done.
  - intros Hin. case_decide as Hk; simpl; [by subst|].
    f_equal. apply IH. apply elem_of_cons in Hin as [?|?]; done.
Qed.

Lemma keys_set_new k v o :
  k ∉ JsObject.keys o →
  JsObject.keys (JsObject.set k v o) = JsObject.keys o ++ [k].
Proof.
  unfold JsObject.keys. induction o as [|[k' v'] o IH]; simpl; [done|].
  intros Hin. apply not_elem_of_cons in Hin as [? ?].
  rewrite decide_False by done. simpl. f_equal. auto.
Qed.

Lemma elem_of_keys_set k k' v o :
  k' ∈ JsObject.keys (JsObject.set k v o) ↔ k' = k ∨ k' ∈ JsObject.keys o.
Proof.
  destruct (decide (k ∈ JsObject.keys o)) as [Hin|Hin].
  - rewrite keys_set_old by done. naive_solver.
  - rewrite keys_set_new, elem_of_app, list_elem_of_singleton by done.
    naive_solver.
Qed.

Lemma wf_set k v o : JsObject.wf o → JsObject.wf (JsObject.set k v o).
Proof.
  unfold JsObject.wf. intros Hwf.
  destruct (decide (k ∈ JsObject.keys o)) as [Hin|Hin].
  - by rewrite keys_set_old.
  - rewrite keys_set_new by done. apply NoDup_app. split_and!; [done| |].
    + intros x Hx ->%list_elem_of_singleton. done.
    + apply NoDup_singleton.
Qed.

(** Assigning fresh, pairwise different names one after the other
    appends them in that order. *)
Lemma keys_foldl_set {B : Type} (key : B → string) (val : B → V)
    (bs : list B) o :
  NoDup (key <$> bs) →
  (∀ b, b ∈ bs → key b ∉ JsObject.keys o) →
  JsObject.keys (foldl (λ acc b, JsObject.set (key b) (val b) acc) o bs)
  = JsObject.keys o ++ (key <$> bs).
Proof.
  revert o. induction bs as [|b bs IH]; intros o Hnd Hfresh; simpl.
  - by rewrite app_nil_r.
  - apply NoDup_cons in Hnd as [Hb Hnd].
    rewrite IH; [|done|].
    + rewrite keys_set_new by (apply Hfresh; left).
      by rewrite <-app_assoc.
    + intros b' Hb'. rewrite elem_of_keys_set. intros [Heq|Hin].
      * apply Hb. rewrite <-Heq. by apply list_elem_of_fmap_2.
      * by apply (Hfresh b'); [right|].
Qed.

(** Whatever the names, a sequence of assignments leaves exactly the
    old names and the assigned ones. *)
Lemma elem_of_keys_foldl_set {B : Type} (key : B → string) (val : B → V)
    (bs : list B) o k :
  k ∈ JsObject.keys (foldl (λ acc b, JsObject.set (key b) (val b) acc) o bs)
  ↔ k ∈ JsObject.keys o ∨ k ∈ key <$> bs.
Proof.
  revert o. induction bs as [|b bs IH]; intros o; simpl.
  - rewrite elem_of_nil. naive_solver.
  - rewrite IH, elem_of_keys_set, elem_of_cons. naive_solver.
Qed.

(** Assigning fresh, pairwise different names one after the other
    appends the properties in that order. *)
Lemma foldl_set_fresh {B : Type} (key : B → string) (val : B → V)
    (bs : list B) o :
  NoDup (key <$> bs) →
  (∀ b, b ∈ bs → key b ∉ JsObject.keys o) →
  foldl (λ acc b, JsObject.set (key b) (val b) acc) o bs
  = o ++ ((λ b, (key b, val b)) <$> bs).
Proof.
  revert o. induction bs as [|b bs IH]; intros o Hnd Hfresh; simpl.
  - by rewrite app_nil_r.
  - apply NoDup_cons in Hnd as [Hb Hnd].
    assert (JsObject.set (key b) (val b) o = o ++ [(key b, val b)]) as Hset.
    { assert (key b ∉ JsObject.keys o) as Hk by (apply Hfresh; left).
      clear -Hk. unfold JsObject.keys in Hk.
      induction o as [|[k' v'] o IHo]; simpl; [done|].
      simpl in Hk. apply not_elem_of_cons in Hk as [? ?].
      rewrite decide_False by done. f_equal. auto. }
    rewrite IH; [|done|].
    + by rewrite Hset, <-app_assoc.
    + intros b' Hb'. rewrite elem_of_keys_set. intros [Heq|Hin].
      * apply Hb. rewrite <-Heq. by apply list_elem_of_fmap_2.
      * by apply (Hfresh b'); [right|].
Qed.

Lemma length_set_le k v o : (length (JsObject.set k v o) ≤ S (length o))%nat.
Proof.
  induction o as [|[k' v'] o IH]; simpl; [done|].
  case_decide; simpl; lia.
Qed.

Lemma length_foldl_set_le {B : Type} (key : B → string) (val : B → V)
    (bs : list B) o :
  (length (foldl (λ acc b, JsObject.set (key b) (val b) acc) o bs)
   ≤ length o + length bs)%nat.
Proof.
  revert o. induction bs as [|b bs IH]; intros o; simpl; [lia|].
  etrans; [apply IH|]. pose proof (length_set_le (key b) (val b) o). lia.
Qed.

Lemma wf_foldl_set {B : Type} (key : B → string) (val : B → V)
    (bs : list B) o :
  JsObject.wf o →
  JsObject.wf (foldl (λ acc b, JsObject.set (key b) (val b) acc) o bs).
Proof.
  revert o. induction bs as [|b bs IH]; intros o Hwf; simpl; [done|].
  apply IH. by apply wf_set.
Qed.

End facts.
End JsObjectFacts.

(** ** [sortObject] *)

Section sortObject_facts.
Context {V : Type}.
Implicit Types (o r : JsObject.t V).

Lemma keys_foldl_copy o (ks : list string) r :
  NoDup ks →
  (∀ k, k ∈ ks → k ∈ JsObject.keys o) →
  (∀ k, k ∈ ks → k ∉ JsObject.keys r) →
  JsObject.keys
    (foldl (λ r k, match JsObject.get k o with
                   | Some v => JsObject.set k v r
                   | None => r
                   end) r ks)
  = JsObject.keys r ++ ks.
Proof.
  revert r. induction ks as [|k ks IH]; intros r Hnd Hin Hfresh; simpl.
  - by rewrite app_nil_r.
  - apply NoDup_cons in Hnd as [Hk Hnd].
    destruct (proj2 (JsObjectFacts.get_is_Some k o)) as [v Hv].
    { apply Hin. left. }
    rewrite Hv, IH; [|done|..].
    + rewrite JsObjectFacts.keys_set_new by (apply Hfresh; left).
      by rewrite <-app_assoc.
    + intros k' Hk'. apply Hin. by right.
    + intros k' Hk'. rewrite JsObjectFacts.elem_of_keys_set.
      intros [->|Hr]; [done|]. by apply (Hfresh k'); [right|].
Qed.

(** The names of a sorted object are the sorted names of the object. *)
Lemma keys_sortObject o :
  JsObject.wf o →
  JsObject.keys (sortObject o) = merge_sort String.le (JsObject.keys o).
Proof.
  intros Hwf. unfold sortObject.
  rewrite keys_foldl_copy; [done|..].
  - by rewrite merge_sort_Permutation.
  - intros k. by rewrite merge_sort_Permutation.
  - intros k _. apply not_elem_of_nil.
Qed.

Lemma Sorted_keys_sortObject o :
  JsObject.wf o → Sorted String.le (JsObject.keys (sortObject o)).
Proof. intros Hwf. rewrite keys_sortObject by done. apply (Sorted_merge_sort _). Qed.

Lemma elem_of_keys_sortObject o k :
  JsObject.wf o → k ∈ JsObject.keys (sortObject o) ↔ k ∈ JsObject.keys o.
Proof. intros Hwf. by rewrite keys_sortObject, merge_sort_Permutation. Qed.

Lemma wf_sortObject o : JsObject.wf o → JsObject.wf (sortObject o).
Proof.
  intros Hwf. unfold JsObject.wf.
  by rewrite keys_sortObject, merge_sort_Permutation.
Qed.

(** Two objects with the same names have the same names, in the same
    order, once sorted. *)
Lemma keys_sortObject_perm o1 o2 :
  JsObject.wf o1 → JsObject.wf o2 →
  JsObject.keys o1 ≡ₚ JsObject.keys o2 →
  JsObject.keys (sortObject o1) = JsObject.keys (sortObject o2).
Proof.
  intros Hwf1 Hwf2 Hperm. rewrite !keys_sortObject by done.
  apply (Sorted_unique String.le).
  - apply (Sorted_merge_sort _).
  - apply (Sorted_merge_sort _).
  - by rewrite !merge_sort_Permutation.
Qed.

End sortObject_facts.

(** ** Strings and numeric suffixes *)

Lemma String_app_nil_r (s : string) : s +:+ "" = s.
Proof.
  induction s as [|c s IH]; [done|].
  change (String c (s +:+ "") = String c s). by rewrite IH.
Qed.

Lemma String_app_eq_self (s t : string) : s +:+ t = s → t = "".
Proof.
  intros Heq. apply (inj (String.app s)). by rewrite String_app_nil_r.
Qed.

Lemma pretty_N_go_length (x : N) (s : string) :
  (String.length s ≤ String.length (pretty_N_go x s))%nat.
Proof.
  revert s. induction (N.lt_wf_0 x) as [x _ IH]; intros s.
  destruct (decide (x = 0)%N) as [->|Hx].
  - by rewrite pretty_N_go_0.
  - rewrite pretty_N_go_step by lia.
    etrans; [|apply IH; apply N.div_lt; lia]. simpl. lia.
Qed.

Lemma numberToString_nonempty (n : nat) : numberToString n ≠ "".
Proof.
  unfold numberToString, pretty, pretty_nat, pretty, pretty_N.
  case_decide as Hn; [done|].
  rewrite pretty_N_go_step by lia. intros Heq.
  pose proof (pretty_N_go_length (N.of_nat n `div` 10)
    (String (pretty_N_char (N.of_nat n `mod` 10)) "")) as Hlen.
  rewrite Heq in Hlen. simpl in Hlen. lia.
Qed.

Lemma numberToString_inj : Inj (=) (=) numberToString.
Proof. unfold numberToString. apply _. Qed.

(** The names of one kind never repeat. *)
Lemma nthViewerName_inj (base : string) : Inj (=) (=) (nthViewerName base).
Proof.
  intros [|i] [|j] Heq; simpl in Heq; [done| | |].
  - symmetry in Heq. apply String_app_eq_self in Heq.
    by apply numberToString_nonempty in Heq.
  - apply String_app_eq_self in Heq.
    by apply numberToString_nonempty in Heq.
  - apply (inj (String.app base)), numberToString_inj in Heq. lia.
Qed.

(** Every name of a kind extends the base name of the kind. *)
Lemma nthViewerName_extends (base : string) (i : nat) :
  ∃ suffix, nthViewerName base i = base +:+ suffix.
Proof.
  destruct i; simpl; [exists ""; by rewrite String_app_nil_r|eauto].
Qed.

(** Two strings with a common extension: one is a prefix of the other. *)
Lemma String_app_eq_prefix (s1 s2 t1 t2 : string) :
  s1 +:+ t1 = s2 +:+ t2 →
  String.prefix s1 s2 = true ∨ String.prefix s2 s1 = true.
Proof.
  revert s2. induction s1 as [|c1 s1 IH]; intros [|c2 s2]; simpl; auto.
  intros [= -> Heq]. destruct (Ascii.ascii_dec c2 c2); [auto|done].
Qed.

Lemma nthViewerName_eq_prefix (base1 base2 : string) (i j : nat) :
  nthViewerName base1 i = nthViewerName base2 j →
  String.prefix base1 base2 = true ∨ String.prefix base2 base1 = true.
Proof.
  destruct (nthViewerName_extends base1 i) as [s1 ->].
  destruct (nthViewerName_extends base2 j) as [s2 ->].
  apply String_app_eq_prefix.
Qed.

Lemma nthViewerName_eq_prefix_of (base name : string) (i : nat) :
  nthViewerName base i = name → String.prefix base name = true.
Proof.
  destruct (nthViewerName_extends base i) as [s ->]. intros <-.
  clear i. induction base as [|c base IH]; [by destruct s|].
  change (String.prefix (String c base) (String c (base +:+ s)) = true).
  simpl. by destruct (Ascii.ascii_dec c c).
Qed.

(** Between two positions that hold [x], the number of earlier
    occurrences of [x] grows. *)
Lemma occurrences_before_lt {A : Type} `{EqDecision A} (l : list A) (x : A)
    (i j : nat) :
  l !! i = Some x → i < j →
  length (filter (λ y, y = x) (take i l))
  < length (filter (λ y, y = x) (take j l)).
Proof.
  intros Hi Hij.
  replace j with (S i + (j - S i)) by lia.
  rewrite <-take_take_drop, (take_S_r _ _ _ Hi), !filter_app, !length_app.
  rewrite filter_cons, decide_True by done. simpl. lia.
Qed.

Lemma occurrences_before_inj {A : Type} `{EqDecision A} (l : list A) (x : A)
    (i j : nat) :
  l !! i = Some x → l !! j = Some x →
  length (filter (λ y, y = x) (take i l))
  = length (filter (λ y, y = x) (take j l)) →
  i = j.
Proof.
  intros Hi Hj Heq. destruct (Nat.lt_total i j) as [Hlt|[?|Hlt]]; [|done|].
  - pose proof (occurrences_before_lt l x i j Hi Hlt). lia.
  - pose proof (occurrences_before_lt l x j i Hj Hlt). lia.
Qed.

(** Dropping repeated elements shortens a list, unless it has none. *)
Lemma length_remove_dups_le {A : Type} `{EqDecision A} (l : list A) :
  (length (remove_dups l) ≤ length l)%nat.
Proof.
  induction l as [|x l IH]; simpl; [done|].
  destruct (decide_rel elem_of x l); simpl; lia.
Qed.

Lemma length_remove_dups_NoDup {A : Type} `{EqDecision A} (l : list A) :
  length (remove_dups l) = length l ↔ NoDup l.
Proof.
  induction l as [|x l IH]; simpl.
  - split; [intros _; apply NoDup_nil_2|done].
  - rewrite NoDup_cons. pose proof (length_remove_dups_le l).
    destruct (decide_rel elem_of x l) as [Hin|Hin]; simpl.
    + split; [lia|]. by intros [? _].
    + rewrite <-IH. split; [intros [=]; done|]. intros [_ ->]. done.
Qed.

(** ** The name allocator *)

Local Arguments allocate : simpl never.
Local Arguments allocation : simpl never.

Section allocator.
Variable sanitize : string → string.
Variable isMutation : bool.

Local Abbreviation base := (baseViewerName sanitize isMutation).
Local Abbreviation alloc := (allocation sanitize isMutation).
Local Abbreviation allocAll := (allocateAll sanitize isMutation).
Local Abbreviation isNumbered := (numbered sanitize isMutation).

(** the list recorded for a kind, [[]] when there is none yet *)
Local Abbreviation namesOf used type := (default [] (used !! type)).

Lemma allocate_unfold (type : string) (used : gmap string (list string)) :
  alloc type used =
  let names := namesOf used type in
  let viewerName :=
    if bool_decide (base type ∈ names)
    then base type +:+ numberToString (length names + 1)
    else base type in
  (viewerName, <[type := names ++ [viewerName]]> used).
Proof. reflexivity. Qed.

(** [allocate] returns the allocation, unless the kind has no list in
    the table and names a property of [Object.prototype]: then it
    throws. *)
Lemma allocate_allocation (type : string) (used : gmap string (list string)) :
  allocate sanitize isMutation type used =
  if bool_decide (is_Some (used !! type))
     || bool_decide (type ∉ objectPrototypeKeys)
  then Some (alloc type used)
  else None.
Proof.
  unfold allocate, allocation.
  destruct (used !! type) as [names|] eqn:Hl.
  - rewrite (bool_decide_eq_true_2 (is_Some (Some names))) by done.
    cbn [orb]. by rewrite Hl.
  - rewrite (bool_decide_eq_false_2 (is_Some None)) by (by intros [? ?]).
    cbn [orb]. destruct (decide (type ∈ objectPrototypeKeys)) as [Hin|Hin].
    + rewrite (bool_decide_eq_true_2 _ Hin), Hl.
      by rewrite bool_decide_eq_false_2 by (by intros ?).
    + rewrite (bool_decide_eq_false_2 _ Hin), lookup_insert_eq.
      rewrite (bool_decide_eq_true_2 _ Hin). cbn [default from_option id].
      by rewrite insert_insert_eq.
Qed.

Lemma allocate_plain (type : string) (used : gmap string (list string)) :
  type ∉ objectPrototypeKeys →
  allocate sanitize isMutation type used = Some (alloc type used).
Proof.
  intros Hplain. rewrite allocate_allocation.
  by rewrite (bool_decide_eq_true_2 _ Hplain), orb_true_r.
Qed.

Lemma allocate_inherited (type : string) (used : gmap string (list string)) :
  type ∈ objectPrototypeKeys → used !! type = None →
  allocate sanitize isMutation type used = None.
Proof.
  intros Hin Hl. rewrite allocate_allocation, Hl.
  rewrite (bool_decide_eq_false_2 (is_Some None)) by (by intros [? ?]).
  by rewrite bool_decide_eq_false_2 by (by intros ?).
Qed.

(** The kinds that have a list after an allocation: those that had one,
    and the kind of the allocation. *)
Lemma allocation_is_Some (type type' : string)
    (used : gmap string (list string)) :
  is_Some ((alloc type used).2 !! type')
  ↔ type' = type ∨ is_Some (used !! type').
Proof.
  unfold allocation. cbn [snd]. rewrite lookup_insert_is_Some.
  destruct (decide (type = type')); naive_solver.
Qed.

Lemma numbered_empty : isNumbered ∅.
Proof. intros type names. by rewrite lookup_empty. Qed.

Lemma numbered_namesOf used type :
  isNumbered used →
  namesOf used type = nthViewerName (base type) <$> seq 0 (length (namesOf used type)).
Proof.
  intros Hnum. destruct (used !! type) as [names|] eqn:Hl; simpl; [|done].
  by apply Hnum.
Qed.

Lemma numbered_NoDup used type names :
  isNumbered used → used !! type = Some names → NoDup names.
Proof.
  intros Hnum Hl. rewrite (Hnum _ _ Hl).
  pose proof (nthViewerName_inj (base type)).
  apply (NoDup_fmap_2 _), NoDup_seq.
Qed.

(** In a numbered registry the allocator hands out the next name of the
    kind, and the registry stays numbered. *)
Lemma allocate_numbered type used :
  isNumbered used →
  alloc type used =
    (nthViewerName (base type) (length (namesOf used type)),
     <[type := namesOf used type
                ++ [nthViewerName (base type) (length (namesOf used type))]]> used)
  ∧ isNumbered (alloc type used).2.
Proof.
  intros Hnum. rewrite allocate_unfold. cbv zeta.
  pose proof (numbered_namesOf used type Hnum) as Hnames.
  remember (namesOf used type) as names eqn:Hn. clear Hn.
  assert ((if bool_decide (base type ∈ names)
           then base type +:+ numberToString (length names + 1)
           else base type) = nthViewerName (base type) (length names)) as ->.
  { destruct names as [|n0 names']; simpl; [done|].
    rewrite bool_decide_eq_true_2; [done|].
    simpl in Hnames. injection Hnames as -> _. left. }
  split; [done|]. simpl.
  intros type' names'. destruct (decide (type = type')) as [<-|Hne].
  - rewrite lookup_insert_eq. intros [= <-].
    rewrite length_app. simpl. rewrite Nat.add_1_r, seq_S, fmap_app. simpl.
    by rewrite <-Hnames.
  - rewrite lookup_insert_ne by done. apply Hnum.
Qed.

Lemma allocateAll_cons type types used :
  allocAll (type :: types) used =
    ((alloc type used).1 :: (allocAll types (alloc type used).2).1,
     (allocAll types (alloc type used).2).2).
Proof.
  cbn [allocateAll]. destruct (alloc type used) as [n used']. cbn [fst snd].
  by destruct (allocAll types used') as [ns used''].
Qed.

Lemma allocateAll_numbered types used :
  isNumbered used → isNumbered (allocAll types used).2.
Proof.
  revert used. induction types as [|type types IH]; intros used Hnum.
  - done.
  - rewrite allocateAll_cons. apply IH. by apply allocate_numbered.
Qed.

Lemma allocateAll_length types used :
  length (allocAll types used).1 = length types.
Proof.
  revert used. induction types as [|type types IH]; intros used; [done|].
  rewrite allocateAll_cons. simpl. by rewrite IH.
Qed.

(** The name handed out at position [i] is determined by the kind at
    that position and by how many names of that kind came before. *)
Lemma allocateAll_lookup types used i type :
  isNumbered used →
  types !! i = Some type →
  (allocAll types used).1 !! i =
    Some (nthViewerName (base type)
            (length (namesOf used type)
             + length (filter (λ t, t = type) (take i types)))).
Proof.
  revert used i. induction types as [|t types IH]; intros used i Hnum Hi.
  { by rewrite lookup_nil in Hi. }
  rewrite allocateAll_cons.
  destruct (allocate_numbered t used Hnum) as [Heq Hnum'].
  rewrite Heq in Hnum' |- *. cbn [fst snd] in Hnum' |- *.
  destruct i as [|i]; simpl in Hi |- *.
  - injection Hi as ->. by rewrite Nat.add_0_r.
  - rewrite (IH _ i Hnum' Hi). do 2 f_equal.
    rewrite filter_cons.
    destruct (decide (t = type)) as [->|Hne].
    + rewrite lookup_insert_eq. simpl. rewrite length_app. simpl. lia.
    + by rewrite lookup_insert_ne.
Qed.

(** From the empty registry: the name at position [i]. *)
Lemma allocateAll_empty_lookup types i type :
  types !! i = Some type →
  (allocAll types ∅).1 !! i =
    Some (nthViewerName (base type)
            (length (filter (λ t, t = type) (take i types)))).
Proof.
  intros Hi. rewrite (allocateAll_lookup types ∅ i type numbered_empty Hi).
  by rewrite lookup_empty.
Qed.

Lemma allocateAll_elem_of types name :
  name ∈ (allocAll types ∅).1 →
  ∃ type i, type ∈ types ∧ name = nthViewerName (base type) i.
Proof.
  intros (i & Hi)%list_elem_of_lookup.
  destruct (types !! i) as [type|] eqn:Hty.
  - rewrite (allocateAll_empty_lookup types i type Hty) in Hi.
    injection Hi as <-. eexists type, _. split; [|done].
    by eapply list_elem_of_lookup_2.
  - apply lookup_ge_None in Hty. apply lookup_lt_Some in Hi.
    rewrite allocateAll_length in Hi. lia.
Qed.

(** Two positions of the same kind never get the same name. *)
Lemma allocateAll_same_kind types i j type name1 name2 :
  i ≠ j →
  types !! i = Some type → types !! j = Some type →
  (allocAll types ∅).1 !! i = Some name1 →
  (allocAll types ∅).1 !! j = Some name2 →
  name1 ≠ name2.
Proof.
  intros Hij Hi Hj.
  rewrite (allocateAll_empty_lookup types i type Hi),
    (allocateAll_empty_lookup types j type Hj).
  intros [= <-] [= <-] Heq. apply Hij.
  apply nthViewerName_inj in Heq.
  by apply (occurrences_before_inj types type).
Qed.

(** When the names of different kinds cannot coincide, no name is
    handed out twice. *)
Lemma allocateAll_NoDup types :
  (∀ type1 type2 i j, type1 ∈ types → type2 ∈ types → type1 ≠ type2 →
     nthViewerName (base type1) i ≠ nthViewerName (base type2) j) →
  NoDup (allocAll types ∅).1.
Proof.
  intros Hsep. apply NoDup_alt. intros i j name Hi Hj.
  destruct (types !! i) as [type1|] eqn:Hty1; last first.
  { apply lookup_ge_None in Hty1. apply lookup_lt_Some in Hi.
    rewrite allocateAll_length in Hi. lia. }
  destruct (types !! j) as [type2|] eqn:Hty2; last first.
  { apply lookup_ge_None in Hty2. apply lookup_lt_Some in Hj.
    rewrite allocateAll_length in Hj. lia. }
  destruct (decide (type1 = type2)) as [<-|Hne].
  - destruct (decide (i = j)) as [|Hij]; [done|].
    by destruct (allocateAll_same_kind types i j type1 name name Hij).
  - rewrite (allocateAll_empty_lookup types i type1 Hty1) in Hi.
    rewrite (allocateAll_empty_lookup types j type2 Hty2) in Hj.
    injection Hi as <-. injection Hj as Heq.
    destruct (Hsep type1 type2 _ _ (list_elem_of_lookup_2 _ _ _ Hty1)
                (list_elem_of_lookup_2 _ _ _ Hty2) Hne (eq_sym Heq)).
Qed.

(** Under a sanitizer that keeps a trailing ["2"], a kind named like
    another kind followed by ["2"] takes the name of the second viewer
    of that kind. *)
Lemma allocateAll_collision type :
  base (type +:+ "2") = base type +:+ "2" →
  (allocAll [type; type; type +:+ "2"] ∅).1
  = [base type; base type +:+ "2"; base type +:+ "2"].
Proof.
  intros Hkeep.
  assert (type ≠ type +:+ "2") as Hne.
  { intros Heq. symmetry in Heq. by apply String_app_eq_self in Heq. }
  rewrite !allocateAll_cons, !allocate_unfold. cbn [fst snd].
  rewrite lookup_empty. cbn [default length].
  rewrite bool_decide_eq_false_2 by apply not_elem_of_nil.
  rewrite lookup_insert_eq. cbn [default length app].
  rewrite bool_decide_eq_true_2 by left.
  rewrite lookup_insert_ne, lookup_insert_ne, lookup_empty by done.
  cbn [default]. rewrite bool_decide_eq_false_2 by apply not_elem_of_nil.
  by rewrite Hkeep.
Qed.

Lemma prefixFree_separated types :
  prefixFree sanitize isMutation types = true →
  kindsSeparated sanitize isMutation types.
Proof.
  unfold prefixFree. rewrite forallb_forall. intros Hall. split.
  - intros type1 type2 i j H1 H2 Hne Heq.
    pose proof (Hall type1 (proj1 (list_elem_of_In _ _) H1)) as Hp1.
    pose proof (Hall type2 (proj1 (list_elem_of_In _ _) H2)) as Hp2.
    apply andb_true_iff in Hp1 as [_ Hp1], Hp2 as [_ Hp2].
    rewrite forallb_forall in Hp1, Hp2.
    specialize (Hp1 type2 (proj1 (list_elem_of_In _ _) H2)).
    specialize (Hp2 type1 (proj1 (list_elem_of_In _ _) H1)).
    rewrite orb_true_iff, bool_decide_eq_true, negb_true_iff in Hp1, Hp2.
    apply nthViewerName_eq_prefix in Heq.
    destruct Hp1 as [?|Hp1]; [done|]. destruct Hp2 as [?|Hp2]; [done|].
    destruct Heq; congruence.
  - intros type i Hin Heq.
    pose proof (Hall type (proj1 (list_elem_of_In _ _) Hin)) as Hp.
    apply andb_true_iff in Hp as [Hp _]. apply negb_true_iff in Hp.
    apply nthViewerName_eq_prefix_of in Heq. congruence.
Qed.

Lemma kindsSeparated_subseteq types1 types2 :
  types1 ⊆ types2 →
  kindsSeparated sanitize isMutation types2 →
  kindsSeparated sanitize isMutation types1.
Proof. intros Hsub [Hsep Hany]. split; eauto. Qed.

End allocator.

(** With the camel-casing sanitizer the kinds of OpenAPI are
    separated, in both modes. *)
Lemma openApiKinds_separated (isMutation : bool) (types : list string) :
  types ⊆ openApiKinds →
  kindsSeparated camelCaseSanitize isMutation types.
Proof.
  intros Hsub. apply (kindsSeparated_subseteq _ _ _ _ Hsub).
  apply prefixFree_separated. by destruct isMutation; vm_compute.
Qed.

(** ** The loop over [queryFields] *)

Section viewers.
Context {Field SchemaObject DataDefinition BuiltType Rest : Type}.
Variable sanitize : string → string.
Variable createDataDef :
  string → SchemaObject → bool → @PreprocessingData SchemaObject Rest →
  DataDefinition * @PreprocessingData SchemaObject Rest.
Variable getGraphQLType :
  DataDefinition → list Oas3 → bool → @PreprocessingData SchemaObject Rest →
  BuiltType * @PreprocessingData SchemaObject Rest.

Local Abbreviation Data := (@PreprocessingData SchemaObject Rest).
Local Abbreviation Scheme := (@ProcessedSecurityScheme SchemaObject).
Local Abbreviation ViewerT := (@Viewer Field SchemaObject BuiltType Rest).
Local Abbreviation getViewer :=
  (@getViewerOT Field SchemaObject BuiltType Rest sanitize).
Local Abbreviation viewerStep :=
  (@viewerFor Field SchemaObject BuiltType Rest sanitize).
Local Abbreviation anyAuthStep :=
  (@anyAuthArg SchemaObject DataDefinition BuiltType Rest
     sanitize createDataDef getGraphQLType).
Local Abbreviation getViewerAnyAuth :=
  (@getViewerAnyAuthOT Field SchemaObject DataDefinition BuiltType Rest
     sanitize createDataDef getGraphQLType).
Local Abbreviation unsorted := (@unsortedArgs BuiltType sanitize).
Local Abbreviation createAndLoad :=
  (@createAndLoadViewer Field SchemaObject DataDefinition BuiltType Rest
     sanitize createDataDef getGraphQLType).

Implicit Types (data : Data) (oass : list Oas3) (isMutation : bool).

Lemma addWarnings_nil data : addWarnings [] data = data.
Proof. destruct data. unfold addWarnings. simpl. by rewrite app_nil_r. Qed.

Lemma addWarnings_app ws1 ws2 data :
  addWarnings ws2 (addWarnings ws1 data) = addWarnings (ws1 ++ ws2) data.
Proof. unfold addWarnings. simpl. by rewrite app_assoc. Qed.

(** [authKind] returns the kind [classify] names, and its only effect
    is the one warning of an unsupported scheme. *)
Lemma authKind_spec (d : SecuritySchemeObject) data :
  authKind d data = Some (classify d, addWarnings (unsupportedWarnings [d]) data).
Proof.
  unfold authKind, classify, unsupportedWarnings.
  rewrite filter_cons, filter_nil.
  destruct (decide (unsupported d)) as [[Hty Hsc]|Hsup].
  - cbv zeta. by repeat case_decide.
  - simpl. rewrite addWarnings_nil.
    destruct (decide (type d = "http")) as [Hty|Hty]; [|done].
    destruct (decide (scheme d = Some "basic")) as [Hsc|Hsc]; [done|].
    by destruct Hsup.
Qed.

(** [getViewerOT] reads nothing of [data] but [data.security]. *)
Lemma getViewerOT_security name protocolName type
    (queryFields : JsObject.t Field) data1 data2 oass :
  security data1 = security data2 →
  getViewer name protocolName type queryFields data1 oass
  = getViewer name protocolName type queryFields data2 oass.
Proof. unfold getViewerOT. by intros ->. Qed.

Lemma getViewerOT_is_Some name protocolName type
    (queryFields : JsObject.t Field) data oass :
  is_Some (JsObject.get protocolName (security data)) →
  is_Some (getViewer name protocolName type queryFields data oass).
Proof.
  intros [sch Hsch]. unfold getViewerOT. rewrite Hsch.
  by case_decide.
Qed.

Lemma getViewerOT_None name protocolName type
    (queryFields : JsObject.t Field) data oass :
  JsObject.get protocolName (security data) = None →
  getViewer name protocolName type queryFields data oass = None.
Proof. intros Hsch. unfold getViewerOT. by rewrite Hsch. Qed.

(** What [getViewerOT] returns for a protocol that has a scheme. *)
Lemma getViewerOT_Some name protocolName type
    (queryFields : JsObject.t Field) data oass (sch : Scheme) :
  JsObject.get protocolName (security data) = Some sch →
  ∃ typeDescription description,
    getViewer name protocolName type queryFields data oass =
      Some (mkViewer
              (mkGraphQLObjectType name typeDescription (λ _, queryFields))
              (λ root args ctx data,
                 (securityContext
                    (JsObj [((sanitizeAndStore sanitize protocolName data).1,
                             args)]),
                  (sanitizeAndStore sanitize protocolName data).2))
              (foldl (λ args parameterName,
                        JsObject.set parameterName
                          (mkArgConfig (GraphQLNonNull GraphQLString)) args)
                 JsObject.empty (JsObject.keys (parameters sch)))
              description).
Proof.
  intros Hsch. unfold getViewerOT. rewrite Hsch.
  case_decide; eexists _, _; reflexivity.
Qed.

(** One iteration for a protocol that has a scheme, when the
    allocation returns. *)
Lemma viewerFor_allocated isMutation oass (l : Locals) protocolName
    (protocolFields : JsObject.t Field) data (sch : Scheme) :
  JsObject.get protocolName (security data) = Some sch →
  allocate sanitize isMutation (classify (def sch)) (usedViewerNames l)
  = Some (allocation sanitize isMutation (classify (def sch))
            (usedViewerNames l)) →
  ∃ viewer : ViewerT,
    let kind := classify (def sch) in
    let alloc := allocation sanitize isMutation kind (usedViewerNames l) in
    getViewer alloc.1 protocolName kind protocolFields data oass = Some viewer
    ∧ viewerStep isMutation oass l (protocolName, protocolFields) data =
        Some (mkLocals (JsObject.set alloc.1 viewer (results l)) alloc.2
                (JsObject.assign (anyAuthFields l) protocolFields),
              addWarnings (unsupportedWarnings [def sch]) data).
Proof.
  intros Hsch Hallocate. cbv zeta.
  destruct (allocation sanitize isMutation (classify (def sch))
              (usedViewerNames l)) as [viewerName used'] eqn:Halloc.
  destruct (getViewerOT_is_Some viewerName protocolName (classify (def sch))
              protocolFields data oass) as [viewer Hv]; [by rewrite Hsch|].
  exists viewer. split; [done|].
  unfold viewerFor, bind, defined. rewrite Hsch, authKind_spec, Hallocate.
  rewrite (getViewerOT_security _ _ _ _ _ data) by done.
  by rewrite Hv.
Qed.

(** One iteration for a protocol that has a scheme whose kind does not
    name a property of [Object.prototype]. *)
Lemma viewerFor_spec isMutation oass (l : Locals) protocolName
    (protocolFields : JsObject.t Field) data (sch : Scheme) :
  JsObject.get protocolName (security data) = Some sch →
  plainKind sch →
  ∃ viewer : ViewerT,
    let kind := classify (def sch) in
    let alloc := allocation sanitize isMutation kind (usedViewerNames l) in
    getViewer alloc.1 protocolName kind protocolFields data oass = Some viewer
    ∧ viewerStep isMutation oass l (protocolName, protocolFields) data =
        Some (mkLocals (JsObject.set alloc.1 viewer (results l)) alloc.2
                (JsObject.assign (anyAuthFields l) protocolFields),
              addWarnings (unsupportedWarnings [def sch]) data).
Proof.
  intros Hsch Hplain. apply viewerFor_allocated; [done|].
  by apply allocate_plain.
Qed.

(** A protocol whose kind names a property of [Object.prototype], and
    has no list in the table, makes the iteration throw. *)
Lemma viewerFor_inherited isMutation oass (l : Locals) protocolName
    (protocolFields : JsObject.t Field) data (sch : Scheme) :
  JsObject.get protocolName (security data) = Some sch →
  ¬ plainKind sch →
  usedViewerNames l !! classify (def sch) = None →
  viewerStep isMutation oass l (protocolName, protocolFields) data = None.
Proof.
  intros Hsch Hin Hl. unfold viewerFor, bind, defined.
  rewrite Hsch, authKind_spec, allocate_inherited; [done| |done].
  unfold plainKind in Hin.
  by destruct (decide (classify (def sch) ∈ objectPrototypeKeys)).
Qed.

Lemma ownKinds_empty : ownKinds ∅.
Proof. intros type [? Hl]. by rewrite lookup_empty in Hl. Qed.

Lemma ownKinds_allocation isMutation type used :
  type ∉ objectPrototypeKeys → ownKinds used →
  ownKinds (allocation sanitize isMutation type used).2.
Proof.
  intros Hplain Hown type' [->|Hl]%allocation_is_Some; [done|by apply Hown].
Qed.

(** A protocol without a scheme makes the iteration throw. *)
Lemma viewerFor_undefined isMutation oass (l : Locals) protocolName
    (protocolFields : JsObject.t Field) data :
  JsObject.get protocolName (security data) = None →
  viewerStep isMutation oass l (protocolName, protocolFields) data = None.
Proof. intros Hsch. unfold viewerFor, bind, defined. by rewrite Hsch. Qed.

Lemma unsupportedWarnings_cons d ds :
  unsupportedWarnings (d :: ds)
  = unsupportedWarnings [d] ++ unsupportedWarnings ds.
Proof.
  unfold unsupportedWarnings. rewrite !filter_cons, filter_nil.
  by case_decide.
Qed.

(** The whole loop, for protocols that all have a scheme: the names
    are those of [allocateAll] over the kinds in order, each viewer is
    the [getViewerOT] of its protocol and is assigned to [results] under
    its name, and the warnings are those of the unsupported schemes. *)
Lemma forIn_viewerFor_spec isMutation oass
    (queryFields : JsObject.t (JsObject.t Field)) (schs : list Scheme)
    (l : Locals) data :
  Forall2 (λ e sch, JsObject.get e.1 (security data) = Some sch)
    queryFields schs →
  Forall plainKind schs →
  ∃ viewers : list ViewerT,
    let alloc := allocateAll sanitize isMutation (classify ∘ def <$> schs)
                   (usedViewerNames l) in
    length viewers = length queryFields
    ∧ (∀ i e sch n v,
         queryFields !! i = Some e → schs !! i = Some sch →
         alloc.1 !! i = Some n → viewers !! i = Some v →
         getViewer n e.1 (classify (def sch)) e.2 data oass = Some v)
    ∧ forIn (viewerStep isMutation oass) queryFields l data =
        Some (mkLocals
                (foldl (λ r nv, JsObject.set nv.1 nv.2 r) (results l)
                   (zip alloc.1 viewers))
                alloc.2
                (foldl JsObject.assign (anyAuthFields l) queryFields.*2),
              addWarnings (unsupportedWarnings (def <$> schs)) data).
Proof.
  intros Hall. revert schs l data Hall.
  induction queryFields as [|[p f] qf IH]; intros schs l data Hall Hplain.
  - apply Forall2_nil_inv_l in Hall as ->. exists []. cbv zeta.
    split_and!; [done|by intros i ????? [=]|].
    simpl. unfold ret. destruct l. by rewrite addWarnings_nil.
  - apply Forall2_cons_inv_l in Hall as (sch & schs' & Hsch & Hall & ->).
    apply Forall_cons in Hplain as [Hplain1 Hplain].
    simpl in Hsch.
    destruct (viewerFor_spec isMutation oass l p f data sch Hsch Hplain1)
      as (v & Hv & Hstep). cbv zeta in Hv, Hstep.
    set (l1 := mkLocals _ _ _) in Hstep.
    set (data1 := addWarnings _ data) in Hstep.
    destruct (IH schs' l1 data1 Hall Hplain) as (vs & Hlen & Hvs & Hloop).
    cbv zeta in Hlen, Hvs, Hloop.
    exists (v :: vs). cbv zeta.
    rewrite fmap_cons, allocateAll_cons. cbn [fst snd].
    split_and!.
    + simpl. by rewrite Hlen.
    + intros [|i] e sch' n v' He Hs Hn Hv'; simpl in He, Hs, Hn, Hv'.
      * by simplify_eq.
      * rewrite <-(Hvs i e sch' n v' He Hs Hn Hv').
        by apply getViewerOT_security.
    + cbn [forIn]. unfold bind at 1. rewrite Hstep, Hloop.
      subst l1 data1. cbn [results usedViewerNames anyAuthFields].
      change (def <$> sch :: schs') with (def sch :: (def <$> schs')).
      by rewrite addWarnings_app,
        (unsupportedWarnings_cons (def sch) (def <$> schs')).
Qed.

(** An iteration leaves [data.security] as it is. *)
Lemma viewerFor_security isMutation oass (l l1 : Locals)
    (entry : string * JsObject.t Field) data data1 :
  viewerStep isMutation oass l entry data = Some (l1, data1) →
  security data1 = security data.
Proof.
  destruct entry as [p f]. unfold viewerFor, bind, defined.
  destruct (JsObject.get p (security data)) as [sch|]; [|done].
  rewrite authKind_spec.
  destruct (allocate _ _ _ _) as [[n used]|]; [|done].
  destruct (getViewerOT _ _ _ _ _ _ _) as [v|]; [|done].
  by intros [= _ <-].
Qed.

(** A protocol of [queryFields] without a scheme in [data.security]
    makes the loop throw. *)
Lemma forIn_viewerFor_undefined isMutation oass
    (queryFields : JsObject.t (JsObject.t Field)) (l : Locals) data :
  (∃ p, p ∈ JsObject.keys queryFields
        ∧ JsObject.get p (security data) = None) →
  forIn (viewerStep isMutation oass) queryFields l data = None.
Proof.
  revert l data.
  induction queryFields as [|[p f] qf IH]; intros l data (p' & Hin & Hnone).
  { by apply elem_of_nil in Hin. }
  cbn [forIn]. unfold bind at 1.
  destruct (JsObject.get p (security data)) as [sch|] eqn:Hsch.
  - destruct (viewerStep isMutation oass l (p, f) data) as [[l1 data1]|]
      eqn:Hstep; [|done].
    apply IH. exists p'.
    apply elem_of_cons in Hin as [->|Hin]; [simpl in Hnone; congruence|].
    split; [done|]. by rewrite (viewerFor_security _ _ _ _ _ _ _ Hstep).
  - by rewrite viewerFor_undefined.
Qed.

(** A protocol whose kind names a property of [Object.prototype] makes
    a loop that started from [{}] throw. *)
Lemma forIn_viewerFor_inherited isMutation oass
    (queryFields : JsObject.t (JsObject.t Field)) (schs : list Scheme)
    (l : Locals) data :
  ownKinds (usedViewerNames l) →
  Forall2 (λ e sch, JsObject.get e.1 (security data) = Some sch)
    queryFields schs →
  Exists (λ sch, ¬ plainKind sch) schs →
  forIn (viewerStep isMutation oass) queryFields l data = None.
Proof.
  intros Hown Hall. revert queryFields l data Hown Hall.
  induction schs as [|sch schs IH]; intros queryFields l data Hown Hall Hex.
  { by apply Exists_nil in Hex. }
  apply Forall2_cons_inv_r in Hall as ([p f] & qf & Hsch & Hall & ->).
  simpl in Hsch. cbn [forIn]. unfold bind at 1.
  destruct (decide (classify (def sch) ∉ objectPrototypeKeys))
      as [Hplain|Hin].
  - destruct (viewerFor_spec isMutation oass l p f data sch Hsch Hplain)
      as (v & _ & ->).
    apply Exists_cons in Hex as [?|Hex]; [done|].
    apply IH; [|done|done]. cbn [usedViewerNames].
    by apply ownKinds_allocation.
  - rewrite (viewerFor_inherited _ _ _ _ _ _ sch); [done..|].
    apply eq_None_not_Some. intros Hl. by apply Hin, Hown.
Qed.

(** A loop that started from [{}] and returns has found, for every
    protocol, a scheme whose kind does not name a property of
    [Object.prototype]. *)
Lemma forIn_viewerFor_Some_schemes isMutation oass
    (queryFields : JsObject.t (JsObject.t Field)) (l l' : Locals) data data' :
  ownKinds (usedViewerNames l) →
  forIn (viewerStep isMutation oass) queryFields l data = Some (l', data') →
  ∃ schs : list Scheme,
    Forall2 (λ e sch, JsObject.get e.1 (security data) = Some sch)
      queryFields schs
    ∧ Forall plainKind schs.
Proof.
  revert l data. induction queryFields as [|[p f] qf IH]; intros l data Hown.
  - intros _. by exists [].
  - cbn [forIn]. unfold bind at 1.
    destruct (JsObject.get p (security data)) as [sch|] eqn:Hsch;
      [|by rewrite viewerFor_undefined].
    destruct (decide (classify (def sch) ∉ objectPrototypeKeys))
      as [Hplain|Hin].
    + destruct (viewerFor_spec isMutation oass l p f data sch Hsch Hplain)
        as (v & _ & ->).
      intros (schs & Hall & Hplains)%IH.
      * exists (sch :: schs). split; by constructor.
      * cbn [usedViewerNames]. by apply ownKinds_allocation.
    + rewrite (viewerFor_inherited _ _ _ _ _ _ sch); [done..|].
      apply eq_None_not_Some. intros Hl. by apply Hin, Hown.
Qed.

(** *** The AnyAuth viewer *)

(** Whenever the loop over [data.security] returns, it has made one
    assignment per protocol, under its sanitized name. *)
Lemma forIn_anyAuthArg_inv oass (ps : list string) (args args' : Args)
    data data' :
  forIn (anyAuthStep oass) ps args data = Some (args', data') →
  ∃ types : list BuiltType,
    length types = length ps
    ∧ args' = foldl (λ acc pt, JsObject.set (sanitize pt.1)
                                 (mkArgConfig (GraphQLBuilt pt.2)) acc)
                args (zip ps types).
Proof.
  revert args data. induction ps as [|p ps IH]; intros args data.
  - intros [= <- _]. by exists [].
  - cbn [forIn]. unfold bind at 1.
    destruct (anyAuthStep oass args p data) as [[args1 data1]|] eqn:Hstep;
      [|done].
    intros (tys & Hlen & ->)%IH.
    unfold anyAuthArg, bind, defined, call, ret in Hstep.
    destruct (JsObject.get p (security data)) as [sch|]; [|done].
    destruct (createDataDef p (schema sch) true data) as [dd d1].
    destruct (getGraphQLType dd oass true d1) as [ty d2].
    injection Hstep as <- _.
    exists (ty :: tys). split; [simpl; by rewrite Hlen|done].
Qed.

(** Whenever [getViewerAnyAuthOT] returns, its viewer carries the
    given name and fields, the sorted argument map, and a resolver that
    wraps its arguments without touching [data]. *)
Lemma getViewerAnyAuthOT_inv name (queryFields : JsObject.t Field) oass data
    (viewer : ViewerT) data' :
  getViewerAnyAuth name queryFields oass data = Some (viewer, data') →
  ∃ types : list BuiltType,
    length types = length (security data)
    ∧ viewer =
        mkViewer
          (mkGraphQLObjectType name
             "Warning: Not every request will work with this viewer type"
             (λ _, queryFields))
          (λ root args ctx data, (securityContext args, data))
          (sortObject (unsorted (JsObject.keys (security data)) types))
          ("A viewer that wraps operations for all available " +:+
           "authentication mechanisms").
Proof.
  unfold getViewerAnyAuthOT, bind, ret.
  destruct (forIn _ _ _ data) as [[args0 data0]|] eqn:Hloop; [|done].
  intros [= <- _]. apply forIn_anyAuthArg_inv in Hloop as (tys & Hlen & ->).
  exists tys. split; [|done].
  rewrite Hlen. unfold JsObject.keys. by rewrite length_fmap.
Qed.

(** [createDataDef] and [getGraphQLType] leave [data.security] alone. *)
Hypothesis createDataDef_security : ∀ fromRef schema isInputType data,
  security (createDataDef fromRef schema isInputType data).2 = security data.
Hypothesis getGraphQLType_security : ∀ def oass isMutation data,
  security (getGraphQLType def oass isMutation data).2 = security data.

Lemma anyAuthArg_spec oass (args : Args) protocolName data (sch : Scheme) :
  JsObject.get protocolName (security data) = Some sch →
  ∃ (type : BuiltType) data',
    anyAuthStep oass args protocolName data =
      Some (JsObject.set (sanitize protocolName)
              (mkArgConfig (GraphQLBuilt type)) args, data')
    ∧ security data' = security data.
Proof.
  intros Hsch. unfold anyAuthArg, bind, defined, call, ret. rewrite Hsch.
  destruct (createDataDef protocolName (schema sch) true data)
    as [dd data1] eqn:H1.
  destruct (getGraphQLType dd oass true data1) as [ty data2] eqn:H2.
  exists ty, (registered sanitize protocolName data2). split; [done|].
  simpl. pose proof (getGraphQLType_security dd oass true data1) as Hs2.
  pose proof (createDataDef_security protocolName (schema sch) true data) as Hs1.
  rewrite H2 in Hs2. rewrite H1 in Hs1. unfold registered. simpl in *.
  congruence.
Qed.

(** The loop over [data.security]: one assignment per protocol, under
    its sanitized name. *)
Lemma forIn_anyAuthArg_spec oass (ps : list string) (args : Args) data :
  (∀ p, p ∈ ps → is_Some (JsObject.get p (security data))) →
  ∃ (types : list BuiltType) data',
    forIn (anyAuthStep oass) ps args data =
      Some (foldl (λ acc pt, JsObject.set (sanitize pt.1)
                               (mkArgConfig (GraphQLBuilt pt.2)) acc)
              args (zip ps types), data')
    ∧ length types = length ps
    ∧ security data' = security data.
Proof.
  revert args data. induction ps as [|p ps IH]; intros args data Hall.
  - by exists [], data.
  - destruct (Hall p) as [sch Hsch]; [left|].
    destruct (anyAuthArg_spec oass args p data sch Hsch)
      as (ty & data1 & Hstep & Hsec1).
    destruct (IH (JsObject.set (sanitize p) (mkArgConfig (GraphQLBuilt ty)) args)
                data1) as (tys & data2 & Hloop & Hlen & Hsec2).
    { intros p' Hp'. rewrite Hsec1. apply Hall. by right. }
    exists (ty :: tys), data2. split_and!.
    + cbn [forIn]. unfold bind at 1. by rewrite Hstep, Hloop.
    + simpl. by rewrite Hlen.
    + congruence.
Qed.

Lemma fmap_sanitize_zip (ps : list string) (types : list BuiltType) :
  length types = length ps →
  (λ pt : string * BuiltType, sanitize pt.1) <$> zip ps types = sanitize <$> ps.
Proof.
  revert types. induction ps as [|p ps IH]; intros [|ty tys] Hlen;
    simplify_eq/=; [done|]. by rewrite IH.
Qed.

Lemma wf_unsortedArgs ps types : JsObject.wf (unsorted ps types).
Proof.
  apply (JsObjectFacts.wf_foldl_set (λ pt, sanitize pt.1)
           (λ pt, mkArgConfig (GraphQLBuilt pt.2))).
  apply NoDup_nil_2.
Qed.

Lemma elem_of_keys_unsortedArgs ps types k :
  length types = length ps →
  k ∈ JsObject.keys (unsorted ps types) ↔ k ∈ sanitize <$> ps.
Proof.
  intros Hlen. unfold unsortedArgs.
  rewrite (JsObjectFacts.elem_of_keys_foldl_set (λ pt, sanitize pt.1)
             (λ pt, mkArgConfig (GraphQLBuilt pt.2))).
  rewrite fmap_sanitize_zip by done.
  unfold JsObject.keys, JsObject.empty. simpl. rewrite elem_of_nil.
  naive_solver.
Qed.

Lemma keys_unsortedArgs ps types :
  length types = length ps →
  NoDup (sanitize <$> ps) →
  JsObject.keys (unsorted ps types) = sanitize <$> ps.
Proof.
  intros Hlen Hnd. unfold unsortedArgs.
  rewrite (JsObjectFacts.keys_foldl_set (λ pt, sanitize pt.1)
             (λ pt, mkArgConfig (GraphQLBuilt pt.2))).
  - by rewrite fmap_sanitize_zip.
  - by rewrite fmap_sanitize_zip.
  - intros b _. apply not_elem_of_nil.
Qed.

(** [getViewerAnyAuthOT] returns: its viewer carries the given name and
    fields, the sorted argument map, and a resolver that wraps its
    arguments without touching [data]. *)
Lemma getViewerAnyAuthOT_spec name (queryFields : JsObject.t Field) oass data :
  ∃ (types : list BuiltType) data',
    length types = length (security data)
    ∧ security data' = security data
    ∧ getViewerAnyAuth name queryFields oass data =
        Some (mkViewer
                (mkGraphQLObjectType name
                   "Warning: Not every request will work with this viewer type"
                   (λ _, queryFields))
                (λ root args ctx data, (securityContext args, data))
                (sortObject
                   (unsorted (JsObject.keys (security data)) types))
                ("A viewer that wraps operations for all available " +:+
                 "authentication mechanisms"),
              data').
Proof.
  destruct (forIn_anyAuthArg_spec oass (JsObject.keys (security data))
              JsObject.empty data) as (tys & data' & Hloop & Hlen & Hsec).
  { intros p Hp. by apply JsObjectFacts.get_is_Some. }
  exists tys, data'. split_and!; [|done|].
  - rewrite Hlen. unfold JsObject.keys. by rewrite length_fmap.
  - unfold getViewerAnyAuthOT, bind, ret. by rewrite Hloop.
Qed.

(** *** [createAndLoadViewer] *)

Lemma schemes_exist (queryFields : JsObject.t (JsObject.t Field)) data :
  (∀ p, p ∈ JsObject.keys queryFields →
        is_Some (JsObject.get p (security data))) →
  ∃ schs : list Scheme,
    Forall2 (λ e sch, JsObject.get e.1 (security data) = Some sch)
      queryFields schs.
Proof.
  induction queryFields as [|[p f] qf IH]; intros Hall.
  - by exists [].
  - destruct (Hall p) as [sch Hsch]; [left|].
    destruct IH as [schs Hschs]; [intros p' Hp'; apply Hall; by right|].
    exists (sch :: schs). by constructor.
Qed.

(** The complete run, for protocols that all have a scheme whose kind
    does not name a property of [Object.prototype]. *)
Lemma createAndLoadViewer_spec isMutation oass
    (queryFields : JsObject.t (JsObject.t Field)) (schs : list Scheme) data :
  Forall2 (λ e sch, JsObject.get e.1 (security data) = Some sch)
    queryFields schs →
  Forall plainKind schs →
  ∃ (viewers : list ViewerT) (anyAuth : ViewerT) data',
    let names :=
      (allocateAll sanitize isMutation (classify ∘ def <$> schs) ∅).1 in
    length viewers = length queryFields
    ∧ (∀ i e sch n v,
         queryFields !! i = Some e → schs !! i = Some sch →
         names !! i = Some n → viewers !! i = Some v →
         getViewer n e.1 (classify (def sch)) e.2 data oass = Some v)
    ∧ getViewerAnyAuth (anyAuthObjectName isMutation)
        (foldl JsObject.assign JsObject.empty queryFields.*2) oass
        (addWarnings (unsupportedWarnings (def <$> schs)) data)
      = Some (anyAuth, data')
    ∧ createAndLoad queryFields isMutation oass data =
        Some (JsObject.set (anyAuthObjectName isMutation) anyAuth
                (foldl (λ r nv, JsObject.set nv.1 nv.2 r) JsObject.empty
                   (zip names viewers)),
              data').
Proof.
  intros Hall Hplain.
  destruct (forIn_viewerFor_spec isMutation oass queryFields schs
              (mkLocals JsObject.empty ∅ JsObject.empty) data Hall Hplain)
    as (vs & Hlen & Hvs & Hloop). cbv zeta in Hlen, Hvs, Hloop.
  simpl in Hvs, Hloop.
  destruct (getViewerAnyAuthOT_spec (anyAuthObjectName isMutation)
              (foldl JsObject.assign JsObject.empty queryFields.*2) oass
              (addWarnings (unsupportedWarnings (def <$> schs)) data))
    as (tys & data' & _ & _ & Hany).
  eexists vs, _, data'. cbv zeta. split_and!; [done|done|exact Hany|].
  unfold createAndLoadViewer, bind at 1. rewrite Hloop.
  unfold bind, ret. cbn [anyAuthFields results]. by rewrite Hany.
Qed.

(** The names of [results] after the loop and the final assignment,
    when no viewer name is used twice. *)
Lemma keys_results (names : list string) (viewers : list ViewerT)
    (anyName : string) (anyAuth : ViewerT) :
  length viewers = length names →
  NoDup (names ++ [anyName]) →
  JsObject.keys
    (JsObject.set anyName anyAuth
       (foldl (λ r nv, JsObject.set nv.1 nv.2 r) JsObject.empty
          (zip names viewers)))
  = names ++ [anyName].
Proof.
  intros Hlen [Hnd [Hfresh _]]%NoDup_app.
  assert (JsObject.keys
            (foldl (λ r (nv : string * ViewerT), JsObject.set nv.1 nv.2 r)
               JsObject.empty (zip names viewers)) = names) as Hkeys.
  { rewrite (JsObjectFacts.keys_foldl_set fst snd); rewrite ?fst_zip by lia;
      [done|done|]. intros b _. apply not_elem_of_nil. }
  rewrite JsObjectFacts.keys_set_new; rewrite Hkeys; [done|].
  intros Hin. apply (Hfresh _ Hin). left.
Qed.

(** An unsupported scheme has the kind ["http"], which is not a name
    of [Object.prototype]. *)
Lemma unsupported_classify (d : SecuritySchemeObject) :
  unsupported d → classify d = "http".
Proof.
  intros [Hty Hsc]. unfold classify. by rewrite decide_True, decide_False.
Qed.

Lemma unsupported_plainKind (sch : Scheme) :
  unsupported (def sch) → plainKind sch.
Proof.
  intros Hunsup. unfold plainKind. rewrite unsupported_classify by done.
  apply (bool_decide_unpack _). by vm_compute.
Qed.

(** The kinds of well-formed entries are the five kinds of OpenAPI, none
    of which is a name of [Object.prototype]. *)
Lemma wellFormed_classify (sch : Scheme) :
  wellFormed sch → classify (def sch) ∈ openApiKinds.
Proof.
  unfold wellFormed, securitySchemeTypes, openApiKinds, classify.
  rewrite !elem_of_cons, elem_of_nil. repeat case_decide; naive_solver.
Qed.

Lemma openApiKinds_plain (type : string) :
  type ∈ openApiKinds → type ∉ objectPrototypeKeys.
Proof.
  revert type. apply Forall_forall. apply (bool_decide_unpack _).
  by vm_compute.
Qed.

Lemma wellFormed_plainKind (sch : Scheme) : wellFormed sch → plainKind sch.
Proof. intros Hwf. by apply openApiKinds_plain, wellFormed_classify. Qed.

(** *** Names of the returned mapping *)

(** C2. Within one auth kind every allocated name is distinct.  The
    allocator appends the current list length + 1 to a base name that
    is already in the list of the kind and records the resulting name;
    it throws, and allocates nothing, for a kind that has no list and
    names a property of [Object.prototype].  In the loop of
    [createAndLoadViewer] over protocols of other kinds, where the
    viewer of the [i]-th protocol is built and stored under the [i]-th
    allocated name, the list of every kind is duplicate-free at the
    end, and any two protocols classified to the same kind, however
    many there are, receive different viewer names; with a protocol of
    such a kind the loop throws. *)
Theorem viewer_names_distinct_within_kind isMutation :
  (∀ type used,
     let names := default [] (used !! type) in
     let base := baseViewerName sanitize isMutation type in
     let viewerName :=
       if bool_decide (base ∈ names)
       then base +:+ numberToString (length names + 1) else base in
     allocate sanitize isMutation type used
     = if bool_decide (is_Some (used !! type))
          || bool_decide (type ∉ objectPrototypeKeys)
       then Some (viewerName, <[type := names ++ [viewerName]]> used)
       else None)
  ∧ (∀ oass (queryFields : JsObject.t (JsObject.t Field))
       (schs : list Scheme) data,
       Forall2 (λ e sch, JsObject.get e.1 (security data) = Some sch)
         queryFields schs →
       Forall plainKind schs →
       ∃ (viewers : list ViewerT) (l : Locals) data',
         forIn (viewerStep isMutation oass) queryFields
           (mkLocals JsObject.empty ∅ JsObject.empty) data = Some (l, data')
         ∧ length viewers = length queryFields
         ∧ (∀ i e sch viewerName viewer,
              queryFields !! i = Some e → schs !! i = Some sch →
              viewerNames sanitize isMutation schs !! i = Some viewerName →
              viewers !! i = Some viewer →
              getViewer viewerName e.1 (classify (def sch)) e.2 data oass
              = Some viewer)
         ∧ results l =
             foldl (λ r nv, JsObject.set nv.1 nv.2 r) JsObject.empty
               (zip (viewerNames sanitize isMutation schs) viewers)
         ∧ (∀ type names,
              usedViewerNames l !! type = Some names → NoDup names)
         ∧ (∀ i j sch1 sch2 name1 name2,
              i ≠ j →
              schs !! i = Some sch1 → schs !! j = Some sch2 →
              classify (def sch1) = classify (def sch2) →
              viewerNames sanitize isMutation schs !! i = Some name1 →
              viewerNames sanitize isMutation schs !! j = Some name2 →
              name1 ≠ name2))
  ∧ (∀ oass (queryFields : JsObject.t (JsObject.t Field))
       (schs : list Scheme) data,
       Forall2 (λ e sch, JsObject.get e.1 (security data) = Some sch)
         queryFields schs →
       Exists (λ sch, ¬ plainKind sch) schs →
       forIn (viewerStep isMutation oass) queryFields
         (mkLocals JsObject.empty ∅ JsObject.empty) data = None).
Proof.
  split_and!.
  - intros type used. apply allocate_allocation.
  - intros oass queryFields schs data Hall Hplain.
    destruct (forIn_viewerFor_spec isMutation oass queryFields schs
                (mkLocals JsObject.empty ∅ JsObject.empty) data Hall Hplain)
      as (vs & Hlen & Hvs & Hloop). cbv zeta in Hlen, Hvs, Hloop.
    simpl in Hvs, Hloop.
    eexists vs, _, _. split_and!; [exact Hloop|done|exact Hvs|done| |].
    + cbn [usedViewerNames]. intros type names Hnames.
      eapply (numbered_NoDup sanitize isMutation); [|exact Hnames].
      apply allocateAll_numbered, numbered_empty.
    + intros i j sch1 sch2 name1 name2 Hij Hi Hj Hkind.
      apply (allocateAll_same_kind sanitize isMutation _ i j
               (classify (def sch1))); [done|..].
      * by rewrite list_lookup_fmap, Hi.
      * by rewrite list_lookup_fmap, Hj, Hkind.
  - intros oass queryFields schs data Hall Hex.
    by apply (forIn_viewerFor_inherited isMutation oass queryFields schs);
      [apply ownKinds_empty|..].
Qed.

(** C1. For [N] protocols with distinct names that each have a
    well-formed entry in [data.security], [createAndLoadViewer] returns
    a mapping with exactly [N + 1] entries: the allocated viewer names
    in the order of the protocols, followed by the AnyAuth name.  These
    names are pairwise distinct, and the AnyAuth name is none of the
    per-protocol names.  The sanitizer is taken to keep the names of
    the five kinds of OpenAPI apart from one another and from the
    AnyAuth name. *)
Theorem createAndLoadViewer_entries isMutation oass
    (queryFields : JsObject.t (JsObject.t Field)) (schs : list Scheme) data :
  JsObject.wf queryFields →
  Forall2 (λ e sch, JsObject.get e.1 (security data) = Some sch)
    queryFields schs →
  Forall wellFormed schs →
  kindsSeparated sanitize isMutation openApiKinds →
  ∃ (results : JsObject.t ViewerT) data',
    createAndLoad queryFields isMutation oass data = Some (results, data')
    ∧ length results = length queryFields + 1
    ∧ JsObject.keys results
      = viewerNames sanitize isMutation schs ++ [anyAuthObjectName isMutation]
    ∧ NoDup (JsObject.keys results)
    ∧ NoDup (viewerNames sanitize isMutation schs)
    ∧ length (viewerNames sanitize isMutation schs) = length queryFields
    ∧ anyAuthObjectName isMutation ∉ viewerNames sanitize isMutation schs.
Proof.
  intros _ Hall Hwf Hopen.
  assert (kindsSeparated sanitize isMutation (classify ∘ def <$> schs))
    as [Hsep Hany].
  { apply (kindsSeparated_subseteq _ _ _ openApiKinds); [|done].
    intros type (sch & -> & Hsch)%list_elem_of_fmap.
    apply wellFormed_classify. by eapply Forall_forall. }
  assert (Forall plainKind schs) as Hplain.
  { eapply Forall_impl; [exact Hwf|]. apply wellFormed_plainKind. }
  destruct (createAndLoadViewer_spec isMutation oass queryFields schs data
              Hall Hplain)
    as (vs & anyAuth & data' & Hlen & _ & _ & Hrun). cbv zeta in Hlen, Hrun.
  change ((allocateAll sanitize isMutation (classify ∘ def <$> schs) ∅).1)
    with (viewerNames sanitize isMutation schs) in Hrun.
  assert (length (viewerNames sanitize isMutation schs) = length queryFields)
    as Hnames.
  { unfold viewerNames. rewrite allocateAll_length, length_fmap.
    symmetry. by eapply Forall2_length. }
  assert (anyAuthObjectName isMutation
          ∉ viewerNames sanitize isMutation schs) as Hfresh.
  { intros (type & i & Hty & Heq)%allocateAll_elem_of.
    by destruct (Hany type i Hty). }
  assert (NoDup (viewerNames sanitize isMutation schs)) as Hnd0
    by (by apply allocateAll_NoDup).
  assert (NoDup (viewerNames sanitize isMutation schs
                 ++ [anyAuthObjectName isMutation])) as Hnd.
  { apply NoDup_app. split_and!.
    - done.
    - by intros x Hx ->%list_elem_of_singleton.
    - apply NoDup_singleton. }
  assert (Hkeys := keys_results (viewerNames sanitize isMutation schs) vs
                     (anyAuthObjectName isMutation) anyAuth
                     (eq_trans Hlen (eq_sym Hnames)) Hnd).
  eexists _, data'. split; [exact Hrun|].
  split_and!; [|exact Hkeys|by rewrite Hkeys|done|done|done].
  rewrite <-JsObjectFacts.length_keys, Hkeys, length_app. simpl. lia.
Qed.

(** *** Classification *)

(** C3. A scheme of type ["http"] with scheme ["basic"] is classified
    as ["basicAuth"], silently.  For any other ["http"] scheme the
    classification records exactly one warning and returns; the
    iteration for such a protocol returns too, with that one warning
    as its only effect on [data], and stores the viewer that
    [getViewerOT] builds for the protocol; over the whole loop there is
    one warning per unsupported occurrence, and [createAndLoadViewer]
    returns, when no protocol is of a kind that names a property of
    [Object.prototype]. *)
Theorem unsupported_http_scheme_warns_once isMutation oass :
  (∀ data,
     authKind (mkSecuritySchemeObject "http" (Some "basic")) data
     = Some ("basicAuth", data))
  ∧ (∀ (sub : option string) data,
       sub ≠ Some "basic" →
       authKind (mkSecuritySchemeObject "http" sub) data
       = Some ("http",
               addWarnings
                 [mkWarning "UNSUPPORTED_HTTP_AUTH_SCHEME" (String_of_scheme sub)]
                 data))
  ∧ (∀ (l : Locals) protocolName (protocolFields : JsObject.t Field) data
       (sch : Scheme),
       JsObject.get protocolName (security data) = Some sch →
       unsupported (def sch) →
       ∃ viewerName (viewer : ViewerT) (l' : Locals),
         viewerStep isMutation oass l (protocolName, protocolFields) data
         = Some (l', addWarnings [unsupportedWarning (def sch)] data)
         ∧ getViewer viewerName protocolName "http" protocolFields data oass
           = Some viewer
         ∧ name (viewer_type viewer) = viewerName
         ∧ JsObject.get viewerName (results l') = Some viewer)
  ∧ (∀ (queryFields : JsObject.t (JsObject.t Field)) (schs : list Scheme)
       (l : Locals) data,
       Forall2 (λ e sch, JsObject.get e.1 (security data) = Some sch)
         queryFields schs →
       Forall plainKind schs →
       ∃ l' : Locals,
         forIn (viewerStep isMutation oass) queryFields l data
         = Some (l', addWarnings
                       (unsupportedWarning <$> filter unsupported (def <$> schs))
                       data))
  ∧ (∀ (queryFields : JsObject.t (JsObject.t Field)) (schs : list Scheme) data,
       Forall2 (λ e sch, JsObject.get e.1 (security data) = Some sch)
         queryFields schs →
       Forall plainKind schs →
       is_Some (createAndLoad queryFields isMutation oass data)).
Proof.
  split_and!.
  - intros data. rewrite authKind_spec.
    change (unsupportedWarnings [_]) with (@nil Warning).
    by rewrite addWarnings_nil.
  - intros sub data Hsub. rewrite authKind_spec.
    unfold classify, unsupportedWarnings. rewrite filter_cons, filter_nil.
    simpl. rewrite decide_False by done.
    rewrite decide_True by (by split). done.
  - intros l p f data sch Hsch Hunsup.
    destruct (viewerFor_spec isMutation oass l p f data sch Hsch
                (unsupported_plainKind sch Hunsup))
      as (v & Hv & Hstep). cbv zeta in Hv, Hstep.
    assert (classify (def sch) = "http") as Hkind
      by (by apply unsupported_classify).
    assert (unsupportedWarnings [def sch] = [unsupportedWarning (def sch)])
      as Hw.
    { unfold unsupportedWarnings.
      by rewrite filter_cons, filter_nil, decide_True. }
    rewrite Hkind in Hv, Hstep. rewrite Hw in Hstep.
    eexists _, v, _. split_and!; [exact Hstep|exact Hv| |].
    + destruct (getViewerOT_Some
                  (allocation sanitize isMutation "http" (usedViewerNames l)).1
                  p "http" f data oass sch Hsch) as (td & d & Heq).
      rewrite Heq in Hv. by injection Hv as <-.
    + cbn [results]. apply JsObjectFacts.get_set_eq.
  - intros queryFields schs l data Hall Hplain.
    destruct (forIn_viewerFor_spec isMutation oass queryFields schs l data
                Hall Hplain)
      as (vs & _ & _ & Hloop). cbv zeta in Hloop. eexists. exact Hloop.
  - intros queryFields schs data Hall Hplain.
    destruct (createAndLoadViewer_spec isMutation oass queryFields schs data
                Hall Hplain) as (vs & anyAuth & data' & _ & _ & _ & Hrun).
    cbv zeta in Hrun. rewrite Hrun. by eexists.
Qed.


(** *** Resolve functions *)

(** C4. The resolve function of a per-protocol viewer ignores its
    first and third argument and returns, for any [args], exactly
    [{ _openapiToGraphql: { security: { <name>: args } } }], where
    [<name>] is what [sanitizeAndStore] returns for the protocol name,
    the sanitized protocol name.  For the protocol ["apiKeyAuth"], a
    name the sanitizer leaves as it is, and the arguments
    [{ token: "abc" }], this is
    [{ _openapiToGraphql: { security: { apiKeyAuth: { token: "abc" } } } }]. *)
Theorem viewer_resolve_nests_args name protocolName type
    (queryFields : JsObject.t Field) data oass (viewer : ViewerT) :
  getViewer name protocolName type queryFields data oass = Some viewer →
  ∀ root args ctx data1,
    (resolve viewer root args ctx data1).1
    = JsObj [(reservedKey,
              JsObj [("security",
                      JsObj [((sanitizeAndStore sanitize protocolName data1).1,
                              args)])])]
    ∧ (sanitizeAndStore sanitize protocolName data1).1 = sanitize protocolName
    ∧ (∀ root' ctx',
         resolve viewer root' args ctx' data1 = resolve viewer root args ctx data1)
    ∧ (protocolName = "apiKeyAuth" → sanitize "apiKeyAuth" = "apiKeyAuth" →
       (resolve viewer root (JsObj [("token", JsString "abc")]) ctx data1).1
       = JsObj [(reservedKey,
                 JsObj [("security",
                         JsObj [("apiKeyAuth",
                                 JsObj [("token", JsString "abc")])])])]).
Proof.
  intros Hv root args ctx data1.
  destruct (JsObject.get protocolName (security data)) as [sch|] eqn:Hsch;
    [|by rewrite getViewerOT_None in Hv].
  destruct (getViewerOT_Some name protocolName type queryFields data oass
              sch Hsch) as (td & d & Heq).
  rewrite Heq in Hv. injection Hv as <-. cbn [resolve].
  split_and!; [done..|].
  intros -> Hid. simpl. by rewrite Hid.
Qed.

(** C5. The resolve function of the AnyAuth viewer returns, for any
    [args], exactly [{ _openapiToGraphql: { security: args } }]: the
    arguments are passed on as they are, not nested under a protocol
    name. *)
Theorem anyAuth_resolve_passes_args name (queryFields : JsObject.t Field)
    oass data (viewer : ViewerT) data' :
  getViewerAnyAuth name queryFields oass data = Some (viewer, data') →
  ∀ root args ctx data1,
    (resolve viewer root args ctx data1).1
    = JsObj [(reservedKey, JsObj [("security", args)])].
Proof.
  intros Hv root args ctx data1.
  by apply getViewerAnyAuthOT_inv in Hv as (tys & _ & ->).
Qed.

(** C8, amended.  The resolve function of the AnyAuth viewer leaves
    [data] as it is.  The resolve function of a per-protocol viewer
    leaves everything but the sanitize table as it is: its call of
    [sanitizeAndStore] records the protocol name under its sanitized
    name in [data.saneMap], so [data] is unchanged exactly when the
    table already holds that entry.  Both return a value built from
    the arguments of the call alone. *)
Theorem resolve_effects :
  (∀ name (queryFields : JsObject.t Field) oass data (viewer : ViewerT) data',
     getViewerAnyAuth name queryFields oass data = Some (viewer, data') →
     ∀ root args ctx data1,
       resolve viewer root args ctx data1 = (securityContext args, data1))
  ∧ (∀ name protocolName type (queryFields : JsObject.t Field) data oass
       (viewer : ViewerT),
       getViewer name protocolName type queryFields data oass = Some viewer →
       ∀ root args ctx data1,
         resolve viewer root args ctx data1
         = (securityContext (JsObj [(sanitize protocolName, args)]),
            registered sanitize protocolName data1)
         ∧ (saneMap data1 !! sanitize protocolName = Some protocolName
            ↔ (resolve viewer root args ctx data1).2 = data1)).
Proof.
  split.
  - intros name queryFields oass data viewer data' Hv root args ctx data1.
    by apply getViewerAnyAuthOT_inv in Hv as (tys & _ & ->).
  - intros name p type queryFields data oass viewer Hv root args ctx data1.
    destruct (JsObject.get p (security data)) as [sch|] eqn:Hsch;
      [|by rewrite getViewerOT_None in Hv].
    destruct (getViewerOT_Some name p type queryFields data oass sch Hsch)
      as (td & d & Heq).
    rewrite Heq in Hv. injection Hv as <-. cbn [resolve].
    split; [done|]. cbn [snd sanitizeAndStore]. split.
    + intros Hl. destruct data1 as [sec sm ws r]. simpl in *.
      by rewrite insert_id.
    + intros Heq'. apply (f_equal saneMap) in Heq'. simpl in Heq'.
      rewrite <-Heq'. apply lookup_insert_eq.
Qed.

(** *** Argument maps *)

(** C6. The argument map of a per-protocol viewer has one entry per
    parameter of the scheme, in the order of [scheme.parameters], and
    the type of every argument is [new GraphQLNonNull(GraphQLString)];
    for parameters declared as [username], [password] the arguments
    are [username], [password], in this order. *)
Theorem viewer_args_in_declared_order name protocolName type
    (queryFields : JsObject.t Field) data oass (viewer : ViewerT)
    (sch : Scheme) :
  getViewer name protocolName type queryFields data oass = Some viewer →
  JsObject.get protocolName (security data) = Some sch →
  JsObject.wf (parameters sch) →
  args viewer
  = (λ kv, (kv.1, mkArgConfig (GraphQLNonNull GraphQLString)))
      <$> parameters sch
  ∧ JsObject.keys (args viewer) = JsObject.keys (parameters sch)
  ∧ (∀ parameterName arg,
       JsObject.get parameterName (args viewer) = Some arg →
       arg_type arg = GraphQLNonNull GraphQLString)
  ∧ (JsObject.keys (parameters sch) = ["username"; "password"] →
     JsObject.keys (args viewer) = ["username"; "password"]).
Proof.
  intros Hv Hsch Hwf.
  destruct (getViewerOT_Some name protocolName type queryFields data oass
              sch Hsch) as (td & d & Heq).
  rewrite Heq in Hv. injection Hv as <-. cbn [args].
  assert (foldl (λ acc parameterName,
                   JsObject.set parameterName
                     (mkArgConfig (BuiltType:=BuiltType)
                        (GraphQLNonNull GraphQLString)) acc)
            JsObject.empty (JsObject.keys (parameters sch))
          = (λ kv, (kv.1, mkArgConfig (GraphQLNonNull GraphQLString)))
              <$> parameters sch) as ->.
  { rewrite (JsObjectFacts.foldl_set_fresh id
               (λ _, mkArgConfig (GraphQLNonNull GraphQLString))).
    - unfold JsObject.empty, JsObject.keys. simpl.
      by rewrite <-list_fmap_compose.
    - by rewrite list_fmap_id.
    - intros b _. apply not_elem_of_nil. }
  assert (JsObject.keys
            ((λ kv : string * string,
                (kv.1, mkArgConfig (BuiltType:=BuiltType)
                         (GraphQLNonNull GraphQLString)))
               <$> parameters sch)
          = JsObject.keys (parameters sch)) as Hkeys.
  { unfold JsObject.keys. by rewrite <-list_fmap_compose. }
  split_and!; [done|done| |by rewrite Hkeys].
  intros parameterName arg Hget.
  apply JsObjectFacts.get_Some_elem_of, list_elem_of_fmap in Hget
    as (kv & [= _ ->] & _). done.
Qed.

(** The argument names of the AnyAuth viewer are the sanitized names
    of the protocols of [data.security]. *)
Lemma elem_of_keys_anyAuth_args name (queryFields : JsObject.t Field) oass
    data (viewer : ViewerT) data' k :
  getViewerAnyAuth name queryFields oass data = Some (viewer, data') →
  k ∈ JsObject.keys (args viewer)
  ↔ ∃ p, p ∈ JsObject.keys (security data) ∧ k = sanitize p.
Proof.
  intros (tys & Hlen & ->)%getViewerAnyAuthOT_inv. cbn [args].
  assert (length tys = length (JsObject.keys (security data))) as Hlen'.
  { unfold JsObject.keys. by rewrite length_fmap. }
  rewrite elem_of_keys_sortObject by apply wf_unsortedArgs.
  rewrite elem_of_keys_unsortedArgs, list_elem_of_fmap by done.
  naive_solver.
Qed.

(** C7, amended.  The argument map of the AnyAuth viewer has one
    entry per sanitized protocol name: an entry for every protocol of
    [data.security], under the sanitized name of the protocol, and no
    other entry, where protocols with the same sanitized name share one
    entry.  So there are at most as many entries as protocols, and as
    many exactly when the sanitized names differ.  The names are in
    lexicographic order, whatever the order of the protocols in
    [data.security]: they are the sorted sequence of the distinct
    sanitized names, and two declarations of the same protocols in
    different orders give the same sequence of argument names. *)
Theorem anyAuth_args_sorted name (queryFields : JsObject.t Field) oass data
    (viewer : ViewerT) data' :
  getViewerAnyAuth name queryFields oass data = Some (viewer, data') →
  (∀ k, k ∈ JsObject.keys (args viewer)
        ↔ ∃ p, p ∈ JsObject.keys (security data) ∧ k = sanitize p)
  ∧ Sorted String.le (JsObject.keys (args viewer))
  ∧ NoDup (JsObject.keys (args viewer))
  ∧ JsObject.keys (args viewer)
    = merge_sort String.le
        (remove_dups (sanitize <$> JsObject.keys (security data)))
  ∧ (length (args viewer) ≤ length (security data))%nat
  ∧ (length (args viewer) = length (security data)
     ↔ NoDup (sanitize <$> JsObject.keys (security data)))
  ∧ (∀ name2 (queryFields2 : JsObject.t Field) oass2 data2
       (viewer2 : ViewerT) data2',
       JsObject.keys (security data2) ≡ₚ JsObject.keys (security data) →
       getViewerAnyAuth name2 queryFields2 oass2 data2
       = Some (viewer2, data2') →
       JsObject.keys (args viewer2) = JsObject.keys (args viewer)).
Proof.
  intros Hv. pose proof Hv as (tys & Hlen & ->)%getViewerAnyAuthOT_inv.
  cbn [args].
  assert (length tys = length (JsObject.keys (security data))) as Hlen'.
  { unfold JsObject.keys. by rewrite length_fmap. }
  pose proof (wf_unsortedArgs (JsObject.keys (security data)) tys) as Hwf.
  assert (JsObject.keys
            (sortObject (unsorted (JsObject.keys (security data)) tys))
          = merge_sort String.le
              (remove_dups (sanitize <$> JsObject.keys (security data))))
    as Hkeys.
  { rewrite keys_sortObject by done. apply (Sorted_unique String.le).
    - apply (Sorted_merge_sort _).
    - apply (Sorted_merge_sort _).
    - rewrite !merge_sort_Permutation.
      apply NoDup_Permutation; [apply Hwf|apply NoDup_remove_dups|].
      intros k. by rewrite elem_of_keys_unsortedArgs, elem_of_remove_dups. }
  assert (length (sortObject (unsorted (JsObject.keys (security data)) tys))
          = length (remove_dups (sanitize <$> JsObject.keys (security data))))
    as Hcount.
  { by rewrite <-JsObjectFacts.length_keys, Hkeys, merge_sort_Permutation. }
  assert (length (sanitize <$> JsObject.keys (security data))
          = length (security data)) as Hsan.
  { rewrite length_fmap. apply JsObjectFacts.length_keys. }
  split_and!.
  - intros k. by rewrite <-(elem_of_keys_anyAuth_args _ _ _ _ _ _ k Hv).
  - by apply Sorted_keys_sortObject.
  - by apply wf_sortObject.
  - exact Hkeys.
  - rewrite Hcount, <-Hsan. apply length_remove_dups_le.
  - rewrite Hcount, <-Hsan. apply length_remove_dups_NoDup.
  - intros name2 queryFields2 oass2 data2 viewer2 data2' Hperm
      (tys2 & Hlen2 & ->)%getViewerAnyAuthOT_inv. cbn [args].
    assert (length tys2 = length (JsObject.keys (security data2))) as Hlen2'.
    { unfold JsObject.keys. by rewrite length_fmap. }
    pose proof (wf_unsortedArgs (JsObject.keys (security data2)) tys2) as Hwf2.
    apply keys_sortObject_perm; [done..|].
    apply NoDup_Permutation; [apply Hwf2|apply Hwf|].
    intros k. rewrite !elem_of_keys_unsortedArgs by done.
    by rewrite Hperm.
Qed.

(** C10. The arguments of the AnyAuth viewer come from
    [data.security], not from [queryFields]: for every scheme of
    [data.security], whether or not [queryFields] names it, the viewer
    stored under the AnyAuth name has an argument under the sanitized
    name of the scheme, for protocols whose schemes are of kinds that
    do not name a property of [Object.prototype]; and for an empty
    [queryFields] the returned mapping consists of this one viewer. *)
Theorem anyAuth_args_cover_all_schemes isMutation oass :
  (∀ (queryFields : JsObject.t (JsObject.t Field)) (schs : list Scheme) data,
     Forall2 (λ e sch, JsObject.get e.1 (security data) = Some sch)
       queryFields schs →
     Forall plainKind schs →
     ∃ (results : JsObject.t ViewerT) data' (viewer : ViewerT),
       createAndLoad queryFields isMutation oass data = Some (results, data')
       ∧ JsObject.get (anyAuthObjectName isMutation) results = Some viewer
       ∧ (∀ k, k ∈ JsObject.keys (args viewer)
               ↔ ∃ p, p ∈ JsObject.keys (security data) ∧ k = sanitize p))
  ∧ (∀ data,
       ∃ (viewer : ViewerT) data',
         createAndLoad [] isMutation oass data
         = Some ([(anyAuthObjectName isMutation, viewer)], data')
         ∧ (∀ k, k ∈ JsObject.keys (args viewer)
                 ↔ ∃ p, p ∈ JsObject.keys (security data) ∧ k = sanitize p)).
Proof.
  assert (∀ (queryFields : JsObject.t (JsObject.t Field)) (schs : list Scheme)
            data,
     Forall2 (λ e sch, JsObject.get e.1 (security data) = Some sch)
       queryFields schs →
     Forall plainKind schs →
     ∃ (viewers : list ViewerT) data' (viewer : ViewerT),
       createAndLoad queryFields isMutation oass data
       = Some (JsObject.set (anyAuthObjectName isMutation) viewer
                 (foldl (λ r nv, JsObject.set nv.1 nv.2 r) JsObject.empty
                    (zip (viewerNames sanitize isMutation schs) viewers)),
               data')
       ∧ (∀ k, k ∈ JsObject.keys (args viewer)
               ↔ ∃ p, p ∈ JsObject.keys (security data) ∧ k = sanitize p))
    as Hrun.
  { intros queryFields schs data Hall Hplain.
    destruct (createAndLoadViewer_spec isMutation oass queryFields schs data
                Hall Hplain) as (vs & anyAuth & data' & _ & _ & Hany & Hrun).
    cbv zeta in Hrun. exists vs, data', anyAuth. split; [exact Hrun|].
    intros k. by apply (elem_of_keys_anyAuth_args _ _ _ _ _ _ k Hany). }
  split.
  - intros queryFields schs data Hall Hplain.
    destruct (Hrun queryFields schs data Hall Hplain)
      as (vs & data' & v & Heq & Hk).
    eexists _, data', v. split_and!; [exact Heq| |exact Hk].
    apply JsObjectFacts.get_set_eq.
  - intros data.
    destruct (Hrun [] [] data) as (vs & data' & v & Heq & Hk);
      [constructor|constructor|].
    exists v, data'. split; [|exact Hk]. rewrite Heq. by destruct vs.
Qed.

End viewers.

(** ** The statements on concrete inputs *)

Lemma Example_schemes1 :
  Forall2 (λ (e : string * JsObject.t unit) sch,
             JsObject.get e.1 (security (Example.data Example.security1))
             = Some sch)
    Example.queryFields1 Example.schemes1.
Proof. repeat constructor. Defined.

Lemma Example_schemes1_plainKind : Forall plainKind Example.schemes1.
Proof. apply (bool_decide_unpack _). by vm_compute. Defined.

Lemma Example_schemes1_wellFormed : Forall wellFormed Example.schemes1.
Proof. apply (bool_decide_unpack _). by vm_compute. Defined.

Lemma Example_schemes5 :
  Forall2 (λ (e : string * JsObject.t unit) sch,
             JsObject.get e.1 (security (Example.data Example.security5))
             = Some sch)
    Example.queryFields5 Example.security5.*2.
Proof. repeat constructor. Defined.

Lemma Example_schemes5_inherited :
  Exists (λ sch, ¬ plainKind sch) Example.security5.*2.
Proof. apply (bool_decide_unpack _). by vm_compute. Defined.

Lemma Example_createDataDef_security fromRef schema isInputType
    (data : Example.Data) :
  security (Example.createDataDef fromRef schema isInputType data).2
  = security data.
Proof. reflexivity. Defined.

Lemma Example_getGraphQLType_security def oass isMutation
    (data : Example.Data) :
  security (Example.getGraphQLType def oass isMutation data).2 = security data.
Proof. reflexivity. Defined.

Lemma viewer_names_distinct_within_kind_witness :
  Forall2 (λ (e : string * JsObject.t unit) sch,
             JsObject.get e.1 (security (Example.data Example.security1))
             = Some sch)
    Example.queryFields1 Example.schemes1
  ∧ Forall plainKind Example.schemes1
  ∧ viewerNames camelCaseSanitize false Example.schemes1
    = ["viewerApiKey"; "viewerBasicAuth"; "viewerHttp"; "viewerApiKey2";
       "viewerApiKey3"]
  ∧ ∃ (viewers : list (@Viewer unit unit string unit)) (l : Locals) data',
      forIn (viewerFor camelCaseSanitize false [Example.oas])
        Example.queryFields1 (mkLocals JsObject.empty ∅ JsObject.empty)
        (Example.data Example.security1) = Some (l, data')
      ∧ length viewers = length Example.queryFields1
      ∧ results l =
          foldl (λ r nv, JsObject.set nv.1 nv.2 r) JsObject.empty
            (zip (viewerNames camelCaseSanitize false Example.schemes1)
               viewers)
      ∧ (∀ type names, usedViewerNames l !! type = Some names → NoDup names)
      ∧ (∀ i j sch1 sch2 name1 name2,
           i ≠ j →
           Example.schemes1 !! i = Some sch1 →
           Example.schemes1 !! j = Some sch2 →
           classify (def sch1) = classify (def sch2) →
           viewerNames camelCaseSanitize false Example.schemes1 !! i
           = Some name1 →
           viewerNames camelCaseSanitize false Example.schemes1 !! j
           = Some name2 →
           name1 ≠ name2)
      ∧ allocate camelCaseSanitize false "constructor" ∅ = None
      ∧ forIn (viewerFor (BuiltType:=string) camelCaseSanitize false
                 [Example.oas])
          Example.queryFields5 (mkLocals JsObject.empty ∅ JsObject.empty)
          (Example.data Example.security5) = None.
Proof.
  split_and!;
    [exact Example_schemes1|exact Example_schemes1_plainKind|by vm_compute|].
  destruct (@viewer_names_distinct_within_kind unit unit string unit
              camelCaseSanitize false) as (Halloc & Hruns & Hthrows).
  destruct (Hruns [Example.oas] Example.queryFields1 Example.schemes1
              (Example.data Example.security1) Example_schemes1
              Example_schemes1_plainKind)
    as (viewers & l & data' & Hloop & Hlen & _ & Hresults & Hnodup & Hdiff).
  exists viewers, l, data'.
  split_and!; [exact Hloop|exact Hlen|exact Hresults|exact Hnodup|exact Hdiff
              |exact (Halloc "constructor" ∅)|].
  exact (Hthrows [Example.oas] Example.queryFields5 Example.security5.*2
           (Example.data Example.security5) Example_schemes5
           Example_schemes5_inherited).
Defined.

Lemma Example_kinds1_separated :
  kindsSeparated camelCaseSanitize false (classify ∘ def <$> Example.schemes1).
Proof.
  apply openApiKinds_separated. intros type Hin.
  repeat (apply elem_of_cons in Hin as [->|Hin]; [set_solver|]).
  by apply elem_of_nil in Hin.
Defined.

Lemma createAndLoadViewer_entries_witness :
  JsObject.wf Example.queryFields1
  ∧ Forall2 (λ (e : string * JsObject.t unit) sch,
               JsObject.get e.1 (security (Example.data Example.security1))
               = Some sch)
      Example.queryFields1 Example.schemes1
  ∧ Forall wellFormed Example.schemes1
  ∧ kindsSeparated camelCaseSanitize false openApiKinds
  ∧ ∃ (results : JsObject.t (@Viewer unit unit string unit)) data',
      Example.createAndLoadViewer Example.queryFields1 false [Example.oas]
        (Example.data Example.security1) = Some (results, data')
      ∧ length results = 6
      ∧ JsObject.keys results
        = ["viewerApiKey"; "viewerBasicAuth"; "viewerHttp"; "viewerApiKey2";
           "viewerApiKey3"; "viewerAnyAuth"]
      ∧ NoDup (JsObject.keys results).
Proof.
  assert (JsObject.wf Example.queryFields1) as Hwf.
  { unfold JsObject.wf. apply (bool_decide_unpack _). by vm_compute. }
  assert (kindsSeparated camelCaseSanitize false openApiKinds) as Hsep.
  { by apply openApiKinds_separated. }
  split_and!; [exact Hwf|exact Example_schemes1
              |exact Example_schemes1_wellFormed|exact Hsep|].
  destruct (@createAndLoadViewer_entries unit unit string string unit
              camelCaseSanitize Example.createDataDef Example.getGraphQLType
              Example_createDataDef_security Example_getGraphQLType_security
              false [Example.oas] Example.queryFields1 Example.schemes1
              (Example.data Example.security1) Hwf Example_schemes1
              Example_schemes1_wellFormed Hsep)
    as (results & data' & Hrun & Hlen & Hkeys & Hnd & _).
  exists results, data'.
  split_and!; [exact Hrun|exact Hlen|exact Hkeys|exact Hnd].
Defined.

(** Outside the types of OpenAPI the names of different kinds are not
    kept apart, the registry being scoped by kind.  Of the four
    protocols [a], [b], [c], [d], with the types ["apiKey"],
    ["apiKey"], ["apiKey2"] and ["anyAuth"], the second and the third
    are both named ["viewerApiKey2"] and the fourth is named
    ["viewerAnyAuth"], the name of the AnyAuth viewer; the returned
    mapping has three entries. *)
Lemma createAndLoadViewer_names_collide :
  JsObject.wf Example.queryFields2
  ∧ Forall2 (λ (e : string * JsObject.t unit) sch,
               JsObject.get e.1 (security (Example.data Example.security2))
               = Some sch)
      Example.queryFields2 Example.security2.*2
  ∧ viewerNames camelCaseSanitize false Example.security2.*2
    = ["viewerApiKey"; "viewerApiKey2"; "viewerApiKey2"; "viewerAnyAuth"]
  ∧ anyAuthObjectName false
    ∈ viewerNames camelCaseSanitize false Example.security2.*2
  ∧ ∃ (results : JsObject.t (@Viewer unit unit string unit)) data',
      Example.createAndLoadViewer Example.queryFields2 false [Example.oas]
        (Example.data Example.security2) = Some (results, data')
      ∧ JsObject.keys results
        = ["viewerApiKey"; "viewerApiKey2"; "viewerAnyAuth"]
      ∧ length results ≠ length Example.queryFields2 + 1.
Proof.
  split_and!.
  - unfold JsObject.wf. apply (bool_decide_unpack _). by vm_compute.
  - repeat constructor.
  - by vm_compute.
  - apply (bool_decide_unpack _). by vm_compute.
  - destruct (Example.createAndLoadViewer Example.queryFields2 false
                [Example.oas] (Example.data Example.security2))
      as [[results data']|] eqn:Hrun; [|by vm_compute in Hrun].
    exists results, data'. split; [done|].
    assert (JsObject.keys results
            = ["viewerApiKey"; "viewerApiKey2"; "viewerAnyAuth"]) as Hkeys.
    { apply (f_equal (fmap (λ rd : _ * Example.Data, JsObject.keys rd.1)))
        in Hrun. vm_compute in Hrun. injection Hrun as Hk.
      symmetry. exact Hk. }
    split; [done|].
    rewrite <-JsObjectFacts.length_keys, Hkeys. by vm_compute.
Qed.

Lemma unsupported_http_scheme_warns_once_witness :
  let sch := Example.entry "digest" "http" (Some "digest") [] in
  JsObject.get "digest" (security (Example.data Example.security1)) = Some sch
  ∧ unsupported (def sch)
  ∧ ∃ viewerName (viewer : @Viewer unit unit string unit) (l' : Locals),
      viewerFor camelCaseSanitize false [Example.oas]
        (mkLocals JsObject.empty ∅ JsObject.empty) ("digest", [("getC", tt)])
        (Example.data Example.security1)
      = Some (l',
              addWarnings
                [mkWarning "UNSUPPORTED_HTTP_AUTH_SCHEME" "digest"]
                (Example.data Example.security1))
      ∧ getViewerOT camelCaseSanitize viewerName "digest" "http"
          [("getC", tt)] (Example.data Example.security1) [Example.oas]
        = Some viewer
      ∧ name (viewer_type viewer) = viewerName
      ∧ JsObject.get viewerName (results l') = Some viewer.
Proof.
  cbv zeta.
  assert (unsupported
            (def (Example.entry "digest" "http"
                    (Some "digest") []))) as Hunsup by (by split).
  split_and!; [reflexivity|exact Hunsup|].
  exact (proj1 (proj2 (proj2
           (@unsupported_http_scheme_warns_once unit unit string string unit
              camelCaseSanitize Example.createDataDef Example.getGraphQLType
              Example_createDataDef_security Example_getGraphQLType_security
              false [Example.oas])))
           (mkLocals JsObject.empty ∅ JsObject.empty) "digest" [("getC", tt)]
           (Example.data Example.security1)
           (Example.entry "digest" "http" (Some "digest") [])
           eq_refl Hunsup).
Defined.


Lemma viewer_resolve_nests_args_witness :
  ∃ viewer : @Viewer unit unit string unit,
    getViewerOT camelCaseSanitize "viewerApiKey" "apiKeyAuth" "apiKey"
      [("getA", tt)] (Example.data Example.security4) [Example.oas]
    = Some viewer
    ∧ ∀ root ctx data1,
        (resolve viewer root (JsObj [("token", JsString "abc")]) ctx data1).1
        = JsObj [(reservedKey,
                  JsObj [("security",
                          JsObj [("apiKeyAuth",
                                  JsObj [("token", JsString "abc")])])])].
Proof.
  destruct (getViewerOT camelCaseSanitize "viewerApiKey" "apiKeyAuth" "apiKey"
              [("getA", tt)] (Example.data Example.security4) [Example.oas])
    as [viewer|] eqn:Hv; [|discriminate Hv].
  exists viewer. split; [reflexivity|]. intros root ctx data1.
  exact (proj2 (proj2 (proj2
           (@viewer_resolve_nests_args unit unit string unit
              camelCaseSanitize "viewerApiKey" "apiKeyAuth" "apiKey"
              [("getA", tt)] (Example.data Example.security4) [Example.oas]
              viewer Hv root (JsObj [("token", JsString "abc")]) ctx data1)))
           eq_refl eq_refl).
Defined.

Lemma anyAuth_resolve_passes_args_witness :
  ∃ (viewer : @Viewer unit unit string unit) data',
    getViewerAnyAuthOT camelCaseSanitize Example.createDataDef
      Example.getGraphQLType "viewerAnyAuth" [("getA", tt)] [Example.oas]
      (Example.data Example.security1) = Some (viewer, data')
    ∧ ∀ root args ctx data1,
        (resolve viewer root args ctx data1).1
        = JsObj [(reservedKey, JsObj [("security", args)])].
Proof.
  destruct (getViewerAnyAuthOT camelCaseSanitize Example.createDataDef
              Example.getGraphQLType "viewerAnyAuth" [("getA", tt)]
              [Example.oas] (Example.data Example.security1))
    as [[viewer data']|] eqn:Hv; [|discriminate Hv].
  exists viewer, data'. split; [reflexivity|].
  exact (@anyAuth_resolve_passes_args unit unit string string unit
           camelCaseSanitize Example.createDataDef Example.getGraphQLType
           "viewerAnyAuth" [("getA", tt)] [Example.oas]
           (Example.data Example.security1) viewer data' Hv).
Defined.

Lemma viewer_args_in_declared_order_witness :
  let sch := Example.entry "basic" "http" (Some "basic")
               [("username", "basic_username");
                ("password", "basic_password")] in
  JsObject.get "basic" (security (Example.data Example.security1)) = Some sch
  ∧ JsObject.wf (parameters sch)
  ∧ ∃ viewer : @Viewer unit unit string unit,
      getViewerOT camelCaseSanitize "viewerBasicAuth" "basic" "basicAuth"
        [("getB", tt)] (Example.data Example.security1) [Example.oas]
      = Some viewer
      ∧ args viewer
        = [("username", mkArgConfig (GraphQLNonNull GraphQLString));
           ("password", mkArgConfig (GraphQLNonNull GraphQLString))]
      ∧ JsObject.keys (args viewer) = ["username"; "password"].
Proof.
  cbv zeta.
  assert (JsObject.wf
            (parameters
               (Example.entry "basic" "http" (Some "basic")
                  [("username", "basic_username");
                   ("password", "basic_password")]))) as Hwf.
  { unfold JsObject.wf. apply (bool_decide_unpack _). by vm_compute. }
  split_and!; [reflexivity|exact Hwf|].
  destruct (getViewerOT camelCaseSanitize "viewerBasicAuth" "basic" "basicAuth"
              [("getB", tt)] (Example.data Example.security1) [Example.oas])
    as [viewer|] eqn:Hv; [|discriminate Hv].
  exists viewer. split; [reflexivity|].
  destruct (@viewer_args_in_declared_order unit unit string unit
              camelCaseSanitize "viewerBasicAuth" "basic" "basicAuth"
              [("getB", tt)] (Example.data Example.security1) [Example.oas]
              viewer _ Hv eq_refl Hwf) as (Hargs & _ & _ & Hkeys).
  split; [exact Hargs|exact (Hkeys eq_refl)].
Defined.

Lemma anyAuth_args_sorted_witness :
  ∃ (viewer viewer2 : @Viewer unit unit string unit) data' data2',
    getViewerAnyAuthOT camelCaseSanitize Example.createDataDef
      Example.getGraphQLType "viewerAnyAuth" [("getA", tt)] [Example.oas]
      (Example.data Example.security1) = Some (viewer, data')
    ∧ getViewerAnyAuthOT camelCaseSanitize Example.createDataDef
        Example.getGraphQLType "viewerAnyAuth" [("getA", tt)] [Example.oas]
        (Example.data Example.security1') = Some (viewer2, data2')
    ∧ JsObject.keys (security (Example.data Example.security1))
      = ["key1"; "basic"; "digest"; "key2"; "key3"]
    ∧ JsObject.keys (security (Example.data Example.security1'))
      = ["key3"; "key2"; "digest"; "basic"; "key1"]
    ∧ Sorted String.le (JsObject.keys (args viewer))
    ∧ length (args viewer) = 5
    ∧ JsObject.keys (args viewer2) = JsObject.keys (args viewer).
Proof.
  destruct (getViewerAnyAuthOT camelCaseSanitize Example.createDataDef
              Example.getGraphQLType "viewerAnyAuth" [("getA", tt)]
              [Example.oas] (Example.data Example.security1))
    as [[viewer data']|] eqn:Hv; [|discriminate Hv].
  destruct (getViewerAnyAuthOT camelCaseSanitize Example.createDataDef
              Example.getGraphQLType "viewerAnyAuth" [("getA", tt)]
              [Example.oas] (Example.data Example.security1'))
    as [[viewer2 data2']|] eqn:Hv2; [|discriminate Hv2].
  exists viewer, viewer2, data', data2'.
  destruct (@anyAuth_args_sorted unit unit string string unit
              camelCaseSanitize Example.createDataDef Example.getGraphQLType
              "viewerAnyAuth" [("getA", tt)] [Example.oas]
              (Example.data Example.security1) viewer data' Hv)
    as (_ & Hsorted & _ & _ & _ & Hlen & Hperm).
  split_and!; [reflexivity..|exact Hsorted| |].
  - apply Hlen. apply (bool_decide_unpack _). by vm_compute.
  - apply (Hperm "viewerAnyAuth" [("getA", tt)] [Example.oas]
             (Example.data Example.security1') viewer2 data2'); [|exact Hv2].
    apply (bool_decide_unpack _). by vm_compute.
Defined.

(** C7, as stated, fails: there is not one entry per protocol.  The
    protocols ["api-key"] and ["api.key"] have the same sanitized name,
    and the argument map of the AnyAuth viewer has the one entry
    ["apiKey"] for the two of them. *)
Lemma anyAuth_args_share_an_entry :
  ∃ (viewer : @Viewer unit unit string unit) data',
    getViewerAnyAuthOT camelCaseSanitize Example.createDataDef
      Example.getGraphQLType "viewerAnyAuth" [("getA", tt)] [Example.oas]
      (Example.data Example.security3) = Some (viewer, data')
    ∧ JsObject.keys (security (Example.data Example.security3))
      = ["api-key"; "api.key"]
    ∧ JsObject.keys (args viewer) = ["apiKey"]
    ∧ length (args viewer) ≠ length (security (Example.data Example.security3)).
Proof.
  destruct (getViewerAnyAuthOT camelCaseSanitize Example.createDataDef
              Example.getGraphQLType "viewerAnyAuth" [("getA", tt)]
              [Example.oas] (Example.data Example.security3))
    as [[viewer data']|] eqn:Hv; [|discriminate Hv].
  exists viewer, data'.
  assert (JsObject.keys (args viewer) = ["apiKey"]) as Hkeys.
  { pose proof (f_equal (fmap (λ vd : _ * Example.Data,
                                 JsObject.keys (args vd.1))) Hv) as Hk.
    vm_compute in Hk. injection Hk as Hk. symmetry. exact Hk. }
  split_and!; [reflexivity|reflexivity|exact Hkeys|].
  rewrite <-(JsObjectFacts.length_keys (args viewer)), Hkeys. by vm_compute.
Qed.

Lemma resolve_effects_witness :
  ∃ viewer : @Viewer unit unit string unit,
    getViewerOT camelCaseSanitize "viewerApiKey" "api-key" "apiKey"
      [("getA", tt)] (Example.data Example.security3) [Example.oas]
    = Some viewer
    ∧ ∀ root args ctx (data1 : Example.Data),
        resolve viewer root args ctx data1
        = (securityContext (JsObj [("apiKey", args)]),
           registered camelCaseSanitize "api-key" data1)
        ∧ (saneMap data1 !! "apiKey" = Some "api-key"
           ↔ (resolve viewer root args ctx data1).2 = data1).
Proof.
  destruct (getViewerOT camelCaseSanitize "viewerApiKey" "api-key" "apiKey"
              [("getA", tt)] (Example.data Example.security3) [Example.oas])
    as [viewer|] eqn:Hv; [|discriminate Hv].
  exists viewer. split; [reflexivity|].
  exact (proj2 (@resolve_effects unit unit string string unit
                  camelCaseSanitize Example.createDataDef
                  Example.getGraphQLType)
           "viewerApiKey" "api-key" "apiKey" [("getA", tt)]
           (Example.data Example.security3) [Example.oas] viewer Hv).
Defined.

(** C8, as stated, fails: a per-protocol resolver writes to the
    sanitize table.  The protocols ["api-key"] and ["api.key"] have the
    same sanitized name; after [createAndLoadViewer] the table maps it
    to ["api.key"], and one call of the resolver of the viewer for
    ["api-key"] maps it to ["api-key"]. *)
Lemma resolve_writes_sanitize_table :
  ∃ (results : JsObject.t (@Viewer unit unit string unit)) data'
    (viewer : @Viewer unit unit string unit),
    Example.createAndLoadViewer Example.queryFields3 false [Example.oas]
      (Example.data Example.security3) = Some (results, data')
    ∧ JsObject.get "viewerApiKey" results = Some viewer
    ∧ getViewerOT camelCaseSanitize "viewerApiKey" "api-key" "apiKey"
        [("getA", tt)] (Example.data Example.security3) [Example.oas]
      = Some viewer
    ∧ saneMap data' !! "apiKey" = Some "api.key"
    ∧ saneMap (resolve viewer JsUndefined (JsObj [("apiKey", JsString "abc")])
                 JsUndefined data').2 !! "apiKey" = Some "api-key"
    ∧ (resolve viewer JsUndefined (JsObj [("apiKey", JsString "abc")])
         JsUndefined data').2 ≠ data'.
Proof.
  destruct (Example.createAndLoadViewer Example.queryFields3 false
              [Example.oas] (Example.data Example.security3))
    as [[results data']|] eqn:Hrun; vm_compute in Hrun; [|discriminate Hrun].
  injection Hrun as <- <-.
  eexists _, _, _. split; [reflexivity|].
  split_and!; [by vm_compute|by vm_compute|by vm_compute|by vm_compute|].
  intros Heq. apply (f_equal (λ d : Example.Data, saneMap d !! "apiKey")) in Heq.
  vm_compute in Heq. discriminate Heq.
Qed.

Lemma anyAuth_args_cover_all_schemes_witness :
  Forall2 (λ (e : string * JsObject.t unit) sch,
             JsObject.get e.1 (security (Example.data Example.security1))
             = Some sch)
    Example.queryFields1'
    [Example.entry "key1" "apiKey" None [("apiKey", "key1_apiKey")]]
  ∧ Forall plainKind
      [Example.entry "key1" "apiKey" None [("apiKey", "key1_apiKey")]]
  ∧ ∃ (results : JsObject.t (@Viewer unit unit string unit)) data'
      (viewer : @Viewer unit unit string unit),
      Example.createAndLoadViewer Example.queryFields1' false [Example.oas]
        (Example.data Example.security1) = Some (results, data')
      ∧ JsObject.get "viewerAnyAuth" results = Some viewer
      ∧ (∀ k, k ∈ JsObject.keys (args viewer)
              ↔ ∃ p, p ∈ ["key1"; "basic"; "digest"; "key2"; "key3"]
                     ∧ k = camelCaseSanitize p).
Proof.
  assert (Forall2 (λ (e : string * JsObject.t unit) sch,
             JsObject.get e.1 (security (Example.data Example.security1))
             = Some sch)
    Example.queryFields1'
    [Example.entry "key1" "apiKey" None [("apiKey", "key1_apiKey")]])
    as Hall by repeat constructor.
  assert (Forall plainKind
            [Example.entry "key1" "apiKey" None [("apiKey", "key1_apiKey")]])
    as Hplain.
  { apply (bool_decide_unpack _). by vm_compute. }
  split_and!; [exact Hall|exact Hplain|].
  exact (proj1 (@anyAuth_args_cover_all_schemes unit unit string string unit
                  camelCaseSanitize Example.createDataDef
                  Example.getGraphQLType Example_createDataDef_security
                  Example_getGraphQLType_security false [Example.oas])
           Example.queryFields1' _ (Example.data Example.security1) Hall
           Hplain).
Defined.


(** * Further properties of the viewer builder *)

(** ** More facts about objects *)

Section more_object_facts.
Context {V : Type}.
Implicit Types (o : JsObject.t V) (k : string) (v : V).

(** After [Object.assign(target, source)] a name holds the value of
    [source] when [source] has it, and the value of [target] otherwise. *)
Lemma get_assign k (target source : JsObject.t V) :
  JsObject.wf source →
  JsObject.get k (JsObject.assign target source)
  = match JsObject.get k source with
    | Some v => Some v
    | None => JsObject.get k target
    end.
Proof.
  unfold JsObject.assign, JsObject.wf, JsObject.keys. revert target.
  induction source as [|[k' v'] source IH]; intros target Hwf; simpl; [done|].
  apply NoDup_cons in Hwf as [Hk' Hwf]. rewrite IH by done.
  case_decide as Hk.
  - subst k'. rewrite (proj2 (JsObjectFacts.get_None k source)) by done.
    apply JsObjectFacts.get_set_eq.
  - destruct (JsObject.get k source); [done|].
    by rewrite JsObjectFacts.get_set_ne.
Qed.

(** Merging a sequence of objects: names that none of them has keep the
    value of the target. *)
Lemma get_foldl_assign_None k (target : JsObject.t V)
    (sources : list (JsObject.t V)) :
  Forall JsObject.wf sources →
  Forall (λ source, JsObject.get k source = None) sources →
  JsObject.get k (foldl JsObject.assign target sources)
  = JsObject.get k target.
Proof.
  revert target.
  induction sources as [|source sources IH]; intros target Hwf Hnone; [done|].
  apply Forall_cons in Hwf as [Hwf1 Hwf], Hnone as [Hnone1 Hnone].
  simpl. rewrite IH by done. by rewrite get_assign, Hnone1.
Qed.

(** Merging a sequence of objects: the last object that has a name
    decides its value. *)
Lemma get_foldl_assign_last k v (target source : JsObject.t V)
    (before after : list (JsObject.t V)) :
  Forall JsObject.wf (before ++ source :: after) →
  JsObject.get k source = Some v →
  Forall (λ source', JsObject.get k source' = None) after →
  JsObject.get k (foldl JsObject.assign target (before ++ source :: after))
  = Some v.
Proof.
  intros Hwf Hk Hafter. rewrite foldl_app. simpl.
  apply Forall_app in Hwf as [_ Hwf]. apply Forall_cons in Hwf as [Hwf1 Hwf].
  rewrite get_foldl_assign_None by done. by rewrite get_assign, Hk.
Qed.

(** A sequence of assignments does not touch the other names. *)
Lemma get_foldl_set_other {B : Type} (key : B → string) (val : B → V)
    (bs : list B) o k :
  k ∉ key <$> bs →
  JsObject.get k (foldl (λ acc b, JsObject.set (key b) (val b) acc) o bs)
  = JsObject.get k o.
Proof.
  revert o. induction bs as [|b bs IH]; intros o Hk; simpl; [done|].
  rewrite fmap_cons in Hk. apply not_elem_of_cons in Hk as [Hkb Hk].
  rewrite IH by done. by apply JsObjectFacts.get_set_ne.
Qed.

(** Under pairwise different names every assignment can be read back. *)
Lemma get_foldl_set_NoDup {B : Type} (key : B → string) (val : B → V)
    (bs : list B) o i b :
  NoDup (key <$> bs) →
  bs !! i = Some b →
  JsObject.get (key b)
    (foldl (λ acc b, JsObject.set (key b) (val b) acc) o bs)
  = Some (val b).
Proof.
  revert o i. induction bs as [|b0 bs IH]; intros o i Hnd Hi; [done|].
  rewrite fmap_cons in Hnd. apply NoDup_cons in Hnd as [Hb0 Hnd].
  destruct i as [|i]; simpl in Hi |- *.
  - injection Hi as ->. rewrite get_foldl_set_other by done.
    apply JsObjectFacts.get_set_eq.
  - by apply (IH _ i).
Qed.

(** A property of names and values that holds of the object and of
    every assignment holds of the result. *)
Lemma foldl_set_invariant {B : Type} (P : string → V → Prop)
    (key : B → string) (val : B → V) (bs : list B) o :
  (∀ k v, JsObject.get k o = Some v → P k v) →
  (∀ b, b ∈ bs → P (key b) (val b)) →
  ∀ k v,
    JsObject.get k (foldl (λ acc b, JsObject.set (key b) (val b) acc) o bs)
    = Some v →
    P k v.
Proof.
  revert o. induction bs as [|b bs IH]; intros o Ho Hbs; simpl; [done|].
  apply IH.
  - intros k v. destruct (decide (key b = k)) as [<-|Hne].
    + rewrite JsObjectFacts.get_set_eq. intros [= <-]. apply Hbs. left.
    + rewrite JsObjectFacts.get_set_ne by done. apply Ho.
  - intros b' Hb'. apply Hbs. by right.
Qed.

(** The names of a merge are the names of the target and of the
    merged objects. *)
Lemma is_Some_get_foldl_assign k (target : JsObject.t V)
    (sources : list (JsObject.t V)) :
  Forall JsObject.wf sources →
  is_Some (JsObject.get k (foldl JsObject.assign target sources))
  ↔ is_Some (JsObject.get k target)
    ∨ ∃ source, source ∈ sources ∧ is_Some (JsObject.get k source).
Proof.
  revert target.
  induction sources as [|source sources IH]; intros target Hwf; simpl.
  - split; [by left|]. intros [?|(? & []%elem_of_nil & _)]. done.
  - apply Forall_cons in Hwf as [Hwf1 Hwf]. rewrite IH by done.
    rewrite get_assign by done. split.
    + intros [Hk|(source' & Hin & Hk)].
      * destruct (JsObject.get k source) eqn:Hs; [|by left].
        right. exists source. split; [left|by rewrite Hs].
      * right. exists source'. split; [by right|done].
    + intros [Hk|(source' & [->|Hin]%elem_of_cons & Hk)].
      * left. by destruct (JsObject.get k source).
      * left. destruct (JsObject.get k source); [done|by destruct Hk].
      * right. by exists source'.
Qed.

(** Of several assignments to one name the last one is read back. *)
Lemma get_foldl_set_last {B : Type} (key : B → string) (val : B → V)
    (bs : list B) o i b :
  bs !! i = Some b →
  (∀ j b', i < j → bs !! j = Some b' → key b' ≠ key b) →
  JsObject.get (key b)
    (foldl (λ acc b, JsObject.set (key b) (val b) acc) o bs)
  = Some (val b).
Proof.
  intros Hi Hlast.
  rewrite <-(take_drop_middle bs i b Hi), foldl_app. cbn [foldl].
  rewrite get_foldl_set_other; [apply JsObjectFacts.get_set_eq|].
  intros (b' & Hkey & (j & Hj)%list_elem_of_lookup)%list_elem_of_fmap.
  rewrite lookup_drop in Hj.
  apply (Hlast (S i + j) b'); [lia|done|done].
Qed.

(** [sortObject] copies properties: what is read from the sorted
    object is read from the object. *)
Lemma get_sortObject_Some o k v :
  JsObject.get k (sortObject o) = Some v → JsObject.get k o = Some v.
Proof.
  unfold sortObject.
  generalize (merge_sort String.le (JsObject.keys o)). intros ks.
  assert (∀ r : JsObject.t V,
            (∀ k v, JsObject.get k r = Some v → JsObject.get k o = Some v) →
            ∀ k v,
              JsObject.get k
                (foldl (λ r k, match JsObject.get k o with
                               | Some v => JsObject.set k v r
                               | None => r
                               end) r ks) = Some v →
              JsObject.get k o = Some v) as Hinv.
  { induction ks as [|k0 ks IH]; intros r Hr; simpl; [done|].
    apply IH. destruct (JsObject.get k0 o) as [v0|] eqn:Hk0; [|done].
    intros k' v'. destruct (decide (k0 = k')) as [<-|Hne].
    - rewrite JsObjectFacts.get_set_eq. by intros [= <-].
    - rewrite JsObjectFacts.get_set_ne by done. apply Hr. }
  apply Hinv. intros k' v' [=].
Qed.

(** Reading from the sorted object is reading from the object. *)
Lemma get_sortObject o k :
  JsObject.wf o → JsObject.get k (sortObject o) = JsObject.get k o.
Proof.
  intros Hwf. destruct (JsObject.get k o) as [v|] eqn:Hk.
  - destruct (proj2 (JsObjectFacts.get_is_Some k (sortObject o))) as [v' Hv'].
    { apply elem_of_keys_sortObject; [done|].
      apply JsObjectFacts.get_is_Some. by rewrite Hk. }
    rewrite Hv'. apply get_sortObject_Some in Hv'. congruence.
  - destruct (JsObject.get k (sortObject o)) as [v'|] eqn:Hv'; [|done].
    apply get_sortObject_Some in Hv'. congruence.
Qed.

End more_object_facts.

Lemma filter_eq_not_elem_of {A : Type} `{EqDecision A} (l : list A) (x : A) :
  x ∉ l → filter (λ y, y = x) l = [].
Proof.
  induction l as [|y l IH]; intros Hx; [done|].
  apply not_elem_of_cons in Hx as [Hne Hx].
  rewrite filter_cons, decide_False by done. auto.
Qed.

(** ** The registry of a run of the allocator *)

Section more_allocator.
Variable sanitize : string → string.
Variable isMutation : bool.

Local Abbreviation base := (baseViewerName sanitize isMutation).
Local Abbreviation alloc := (allocation sanitize isMutation).
Local Abbreviation allocAll := (allocateAll sanitize isMutation).
Local Abbreviation isNumbered := (numbered sanitize isMutation).
Local Abbreviation namesOf used type := (default [] (used !! type)).

(** After a run of the allocator the list of a kind that was asked for
    holds the names of the kind in order, one more for every request;
    the list of any other kind is as before. *)
Lemma allocateAll_registry types used type :
  isNumbered used →
  (allocAll types used).2 !! type
  = if decide (type ∈ types)
    then Some (nthViewerName (base type)
                 <$> seq 0 (length (namesOf used type)
                            + length (filter (λ t, t = type) types)))
    else used !! type.
Proof.
  revert used. induction types as [|t types IH]; intros used Hnum.
  { rewrite decide_False by apply not_elem_of_nil. done. }
  rewrite allocateAll_cons. cbn [snd].
  destruct (allocate_numbered sanitize isMutation t used Hnum)
    as [Heq Hnum'].
  rewrite (IH _ Hnum'). rewrite Heq. cbn [snd]. rewrite filter_cons.
  destruct (decide (t = type)) as [->|Hne].
  - rewrite lookup_insert_eq. cbn [default from_option id].
    rewrite length_app. cbn [length].
    rewrite (decide_True (P:=type ∈ type :: types)) by left.
    destruct (decide (type ∈ types)) as [Hin|Hin].
    + by replace (length (namesOf used type) + 1
                  + length (filter (λ t, t = type) types))
        with (length (namesOf used type)
              + S (length (filter (λ t, t = type) types))) by lia.
    + rewrite filter_eq_not_elem_of by done.
      simpl. rewrite Nat.add_1_r, seq_S, fmap_app. simpl.
      by rewrite <-(numbered_namesOf sanitize isMutation used type Hnum).
  - rewrite lookup_insert_ne by done.
    destruct (decide (type ∈ types)) as [Hin|Hin].
    + rewrite (decide_True (P:=type ∈ t :: types)) by (by right). done.
    + rewrite (decide_False (P:=type ∈ t :: types)); [done|].
      intros [?|?]%elem_of_cons; done.
Qed.

End more_allocator.

(** ** Whenever [createAndLoadViewer] returns *)

Section more_viewers.
Context {Field SchemaObject DataDefinition BuiltType Rest : Type}.
Variable sanitize : string → string.
Variable createDataDef :
  string → SchemaObject → bool → @PreprocessingData SchemaObject Rest →
  DataDefinition * @PreprocessingData SchemaObject Rest.
Variable getGraphQLType :
  DataDefinition → list Oas3 → bool → @PreprocessingData SchemaObject Rest →
  BuiltType * @PreprocessingData SchemaObject Rest.

Local Abbreviation Data := (@PreprocessingData SchemaObject Rest).
Local Abbreviation Scheme := (@ProcessedSecurityScheme SchemaObject).
Local Abbreviation ViewerT := (@Viewer Field SchemaObject BuiltType Rest).
Local Abbreviation getViewer :=
  (@getViewerOT Field SchemaObject BuiltType Rest sanitize).
Local Abbreviation viewerStep :=
  (@viewerFor Field SchemaObject BuiltType Rest sanitize).
Local Abbreviation getViewerAnyAuth :=
  (@getViewerAnyAuthOT Field SchemaObject DataDefinition BuiltType Rest
     sanitize createDataDef getGraphQLType).
Local Abbreviation createAndLoad :=
  (@createAndLoadViewer Field SchemaObject DataDefinition BuiltType Rest
     sanitize createDataDef getGraphQLType).
Local Abbreviation names := (@viewerNames SchemaObject sanitize).
Local Abbreviation anyAuthStep :=
  (@anyAuthArg SchemaObject DataDefinition BuiltType Rest
     sanitize createDataDef getGraphQLType).
Local Abbreviation argType :=
  (anyAuthArgType createDataDef getGraphQLType).
Local Abbreviation argData :=
  (anyAuthArgData sanitize createDataDef getGraphQLType).
Local Abbreviation argTypes :=
  (anyAuthArgTypes sanitize createDataDef getGraphQLType).
Local Abbreviation before :=
  (dataBefore sanitize createDataDef getGraphQLType).

Implicit Types (data : Data) (oass : list Oas3) (isMutation : bool).

(** What a returning run has done: every protocol has a scheme, of a
    kind that does not name a property of [Object.prototype], one
    viewer per protocol was built by [getViewerOT] under the allocated
    name and assigned to [results] in order, and the AnyAuth viewer was
    built from the merged fields and assigned last. *)
Lemma createAndLoadViewer_inv isMutation oass
    (queryFields : JsObject.t (JsObject.t Field)) data
    (res : JsObject.t ViewerT) data' :
  createAndLoad queryFields isMutation oass data = Some (res, data') →
  ∃ (schs : list Scheme) (viewers : list ViewerT) (anyAuth : ViewerT),
    Forall2 (λ e sch, JsObject.get e.1 (security data) = Some sch)
      queryFields schs
    ∧ Forall plainKind schs
    ∧ length viewers = length queryFields
    ∧ (∀ i e sch n v,
         queryFields !! i = Some e → schs !! i = Some sch →
         names isMutation schs !! i = Some n → viewers !! i = Some v →
         getViewer n e.1 (classify (def sch)) e.2 data oass = Some v)
    ∧ getViewerAnyAuth (anyAuthObjectName isMutation)
        (foldl JsObject.assign JsObject.empty queryFields.*2) oass
        (addWarnings (unsupportedWarnings (def <$> schs)) data)
      = Some (anyAuth, data')
    ∧ res
      = JsObject.set (anyAuthObjectName isMutation) anyAuth
          (foldl (λ r nv, JsObject.set nv.1 nv.2 r) JsObject.empty
             (zip (names isMutation schs) viewers)).
Proof.
  intros Hrun. unfold createAndLoadViewer, bind in Hrun.
  destruct (forIn _ queryFields _ data) as [[l d1]|] eqn:Hloop; [|done].
  pose proof Hloop as (schs & Hall & Hplain)%forIn_viewerFor_Some_schemes;
    [|apply ownKinds_empty].
  destruct (forIn_viewerFor_spec sanitize isMutation oass queryFields schs
              (mkLocals JsObject.empty ∅ JsObject.empty
                 : @Locals Field SchemaObject BuiltType Rest) data Hall Hplain)
    as (vs & Hlen & Hvs & Hloop'). cbv zeta in Hlen, Hvs, Hloop'.
  simpl in Hvs, Hloop'. rewrite Hloop' in Hloop. injection Hloop as <- <-.
  cbn [anyAuthFields results] in Hrun.
  destruct (getViewerAnyAuthOT _ _ _ _ _ _ _) as [[anyAuth d2]|] eqn:Hany;
    [|done].
  unfold ret in Hrun. injection Hrun as <- <-.
  exists schs, vs, anyAuth. split_and!; done.
Qed.

(** A run that returns in one mode returns in the other. *)
Lemma getViewerAnyAuthOT_name name1 name2 (queryFields : JsObject.t Field)
    oass data (viewer : ViewerT) data' :
  getViewerAnyAuth name1 queryFields oass data = Some (viewer, data') →
  getViewerAnyAuth name2 queryFields oass data
  = Some (withTypeName name2 viewer, data').
Proof.
  unfold getViewerAnyAuthOT, bind, ret.
  destruct (forIn _ _ _ data) as [[args0 data0]|]; [|done].
  by intros [= <- <-].
Qed.

Lemma getViewerOT_name name1 name2 protocolName type
    (queryFields : JsObject.t Field) data oass (viewer : ViewerT) :
  getViewer name1 protocolName type queryFields data oass = Some viewer →
  getViewer name2 protocolName type queryFields data oass
  = Some (withTypeName name2 viewer).
Proof.
  unfold getViewerOT.
  destruct (JsObject.get protocolName (security data)) as [sch|]; [|done].
  case_decide; by intros [= <-].
Qed.

Lemma Forall2_schemes_is_Some (queryFields : JsObject.t (JsObject.t Field))
    (schs : list Scheme) data p :
  Forall2 (λ e sch, JsObject.get e.1 (security data) = Some sch)
    queryFields schs →
  p ∈ JsObject.keys queryFields →
  is_Some (JsObject.get p (security data)).
Proof.
  unfold JsObject.keys. intros Hall (e & -> & He)%list_elem_of_fmap.
  apply list_elem_of_lookup in He as [i Hi].
  destruct (Forall2_lookup_l _ _ _ _ _ Hall Hi) as (sch & _ & Hsch).
  by rewrite Hsch.
Qed.

(** X2. Every viewer of the returned mapping is stored under the name
    of its own GraphQL object type, also when two viewers were given
    the same name and the later one replaced the earlier one. *)
Theorem results_keyed_by_type_name isMutation oass
    (queryFields : JsObject.t (JsObject.t Field)) data
    (res : JsObject.t ViewerT) data' :
  createAndLoad queryFields isMutation oass data = Some (res, data') →
  ∀ k (viewer : ViewerT),
    JsObject.get k res = Some viewer → name (viewer_type viewer) = k.
Proof.
  intros (schs & vs & anyAuth & Hall & _ & Hlen & Hvs & Hany & ->)
    %createAndLoadViewer_inv k viewer.
  destruct (decide (anyAuthObjectName isMutation = k)) as [<-|Hne].
  { rewrite JsObjectFacts.get_set_eq. intros [= <-].
    by apply getViewerAnyAuthOT_inv in Hany as (tys & _ & ->). }
  rewrite JsObjectFacts.get_set_ne by done.
  apply (foldl_set_invariant (λ k v, name (viewer_type v) = k) fst snd);
    [done|].
  intros [n v] (i & Hi)%list_elem_of_lookup. simpl.
  apply lookup_zip_with_Some in Hi as (n' & v' & [= <- <-] & Hn & Hv).
  assert (i < length queryFields) as Hlt.
  { rewrite <-Hlen. by eapply lookup_lt_Some. }
  destruct (lookup_lt_is_Some_2 queryFields i Hlt) as [e He].
  destruct (Forall2_lookup_l _ _ _ _ _ Hall He) as (sch & Hsch & Hget).
  specialize (Hvs i e sch n v He Hsch Hn Hv).
  destruct (getViewerOT_Some (BuiltType:=BuiltType) sanitize n e.1 (classify (def sch)) e.2 data oass
              sch Hget) as (td & d & Heq).
  rewrite Heq in Hvs. by injection Hvs as <-.
Qed.

(** X4. The fields of the AnyAuth viewer are the fields of all
    protocols merged in the order of [queryFields]: a name is a field
    of the AnyAuth viewer exactly when some protocol has it, and where
    several protocols have a field of the same name, the field of the
    last of them is the one kept. *)
Theorem anyAuth_fields_merged isMutation oass
    (queryFields : JsObject.t (JsObject.t Field)) data
    (res : JsObject.t ViewerT) data' :
  createAndLoad queryFields isMutation oass data = Some (res, data') →
  Forall JsObject.wf queryFields.*2 →
  ∃ anyAuth : ViewerT,
    JsObject.get (anyAuthObjectName isMutation) res = Some anyAuth
    ∧ fields (viewer_type anyAuth) ()
      = foldl JsObject.assign JsObject.empty queryFields.*2
    ∧ (∀ f, is_Some (JsObject.get f (fields (viewer_type anyAuth) ()))
            ↔ ∃ e, e ∈ queryFields ∧ is_Some (JsObject.get f e.2))
    ∧ (∀ before p protocolFields after f field,
         queryFields = before ++ (p, protocolFields) :: after →
         JsObject.get f protocolFields = Some field →
         Forall (λ e, JsObject.get f e.2 = None) after →
         JsObject.get f (fields (viewer_type anyAuth) ()) = Some field).
Proof.
  intros (schs & vs & anyAuth & _ & _ & _ & _ & Hany & ->)
    %createAndLoadViewer_inv Hwf.
  exists anyAuth. rewrite JsObjectFacts.get_set_eq.
  apply getViewerAnyAuthOT_inv in Hany as (tys & _ & ->). cbn [viewer_type fields].
  split_and!; [done|done| |].
  - intros f. rewrite is_Some_get_foldl_assign by done. split.
    + intros [[? [=]]|(fs & (e & -> & He)%list_elem_of_fmap & Hf)].
      by exists e.
    + intros (e & He & Hf). right. exists e.2.
      split; [by apply list_elem_of_fmap_2|done].
  - intros before p fs after f field -> Hf Hafter.
    rewrite fmap_app, fmap_cons in Hwf |- *.
    apply get_foldl_assign_last; [done|done|].
    by apply Forall_fmap.
Qed.

(** X8. A per-protocol resolver may be called again and again: a
    second call, with whatever arguments, leaves [data] as the first
    call left it. *)
Theorem resolve_twice name protocolName type (queryFields : JsObject.t Field)
    data oass (viewer : ViewerT) :
  getViewer name protocolName type queryFields data oass = Some viewer →
  ∀ root1 args1 ctx1 root2 args2 ctx2 data1,
    resolve viewer root2 args2 ctx2
      (resolve viewer root1 args1 ctx1 data1).2
    = (securityContext (JsObj [(sanitize protocolName, args2)]),
       (resolve viewer root1 args1 ctx1 data1).2).
Proof.
  intros Hv root1 args1 ctx1 root2 args2 ctx2 data1.
  destruct (JsObject.get protocolName (security data)) as [sch|] eqn:Hsch;
    [|by rewrite getViewerOT_None in Hv].
  destruct (getViewerOT_Some (BuiltType:=BuiltType) sanitize name protocolName type queryFields data
              oass sch Hsch) as (td & d & Heq).
  rewrite Heq in Hv. injection Hv as <-. cbn [resolve].
  unfold sanitizeAndStore. cbn [fst snd security saneMap warnings rest].
  by rewrite insert_insert_eq.
Qed.


(** *** Properties that need the run to return *)

(** [createDataDef] and [getGraphQLType] leave [data.security] alone. *)
Hypothesis createDataDef_security : ∀ fromRef schema isInputType data,
  security (createDataDef fromRef schema isInputType data).2 = security data.
Hypothesis getGraphQLType_security : ∀ def oass isMutation data,
  security (getGraphQLType def oass isMutation data).2 = security data.

Lemma schemes_exist_plainKind (queryFields : JsObject.t (JsObject.t Field))
    data :
  (∀ p, p ∈ JsObject.keys queryFields →
        ∃ sch : Scheme,
          JsObject.get p (security data) = Some sch ∧ plainKind sch) →
  ∃ schs : list Scheme,
    Forall2 (λ e sch, JsObject.get e.1 (security data) = Some sch)
      queryFields schs
    ∧ Forall plainKind schs.
Proof.
  induction queryFields as [|[p f] qf IH]; intros Hall.
  - by exists [].
  - destruct (Hall p) as (sch & Hsch & Hplain); [left|].
    destruct IH as (schs & Hschs & Hplains);
      [intros p' Hp'; apply Hall; by right|].
    exists (sch :: schs). split; by constructor.
Qed.

(** X1. With collaborators that return, [createAndLoadViewer] returns
    exactly when every protocol of [queryFields] has a scheme in
    [data.security] whose kind does not name a property of
    [Object.prototype]; one protocol without a scheme, or of such a
    kind, makes the whole call throw. *)
Theorem createAndLoadViewer_returns_iff isMutation oass
    (queryFields : JsObject.t (JsObject.t Field)) data :
  is_Some (createAndLoad queryFields isMutation oass data)
  ↔ ∀ p, p ∈ JsObject.keys queryFields →
         ∃ sch : Scheme,
           JsObject.get p (security data) = Some sch ∧ plainKind sch.
Proof.
  split.
  - intros [[res data'] Hrun] p Hp.
    apply createAndLoadViewer_inv in Hrun
      as (schs & _ & _ & Hall & Hplain & _).
    unfold JsObject.keys in Hp.
    apply list_elem_of_fmap in Hp as (e & -> & He).
    apply list_elem_of_lookup in He as [i Hi].
    destruct (Forall2_lookup_l _ _ _ _ _ Hall Hi) as (sch & Hsch & Hget).
    exists sch. split; [done|].
    by apply (Forall_lookup_1 _ _ _ _ Hplain Hsch).
  - intros (schs & Hall & Hplain)%schemes_exist_plainKind.
    destruct (createAndLoadViewer_spec sanitize createDataDef getGraphQLType
                createDataDef_security getGraphQLType_security
                isMutation oass queryFields schs data Hall Hplain)
      as (vs & anyAuth & data' & _ & _ & _ & Hrun).
    cbv zeta in Hrun. rewrite Hrun. by eexists.
Qed.

(** X3. When the viewer names of different kinds cannot coincide, the
    viewer of every protocol is found in the returned mapping under a
    name that can be told in advance: the sanitized base name of its
    kind for the first protocol of the kind, and the base name followed
    by [k + 1] for a protocol that comes after [k] others of its kind.
    The viewer found there is the one [getViewerOT] builds for this
    protocol and wraps the fields of this protocol.  No kind is taken
    to name a property of [Object.prototype]. *)
Theorem viewer_found_under_numbered_name isMutation oass
    (queryFields : JsObject.t (JsObject.t Field)) (schs : list Scheme) data :
  Forall2 (λ e sch, JsObject.get e.1 (security data) = Some sch)
    queryFields schs →
  Forall plainKind schs →
  kindsSeparated sanitize isMutation (classify ∘ def <$> schs) →
  ∃ (res : JsObject.t ViewerT) data',
    createAndLoad queryFields isMutation oass data = Some (res, data')
    ∧ ∀ i e sch,
        queryFields !! i = Some e → schs !! i = Some sch →
        ∃ viewer : ViewerT,
          let type := classify (def sch) in
          let viewerName :=
            nthViewerName (baseViewerName sanitize isMutation type)
              (sameKindBefore schs i type) in
          JsObject.get viewerName res = Some viewer
          ∧ getViewer viewerName e.1 type e.2 data oass = Some viewer
          ∧ fields (viewer_type viewer) () = e.2.
Proof.
  intros Hall Hplain [Hsep Hany].
  destruct (createAndLoadViewer_spec sanitize createDataDef getGraphQLType
              createDataDef_security getGraphQLType_security
              isMutation oass queryFields schs data Hall Hplain)
    as (vs & anyAuth & data' & Hlen & Hvs & _ & Hrun).
  cbv zeta in Hlen, Hvs, Hrun.
  change ((allocateAll sanitize isMutation (classify ∘ def <$> schs) ∅).1)
    with (names isMutation schs) in Hvs, Hrun.
  eexists _, data'. split; [exact Hrun|].
  intros i e sch He Hsch. cbv zeta.
  assert (names isMutation schs !! i
          = Some (nthViewerName
                    (baseViewerName sanitize isMutation (classify (def sch)))
                    (sameKindBefore schs i (classify (def sch))))) as Hn.
  { unfold viewerNames, sameKindBefore.
    apply allocateAll_empty_lookup. by rewrite list_lookup_fmap, Hsch. }
  destruct (lookup_lt_is_Some_2 vs i) as [v Hv].
  { rewrite Hlen. by eapply lookup_lt_Some. }
  pose proof (Hvs i e sch _ v He Hsch Hn Hv) as Hget.
  exists v. split_and!; [|done|].
  - rewrite JsObjectFacts.get_set_ne; last first.
    { intros Heq. by destruct (Hany (classify (def sch))
        (sameKindBefore schs i (classify (def sch)))
        (list_elem_of_fmap_2 (classify ∘ def) _ _
           (list_elem_of_lookup_2 _ _ _ Hsch))). }
    apply (get_foldl_set_NoDup fst snd _ _ i (_, v)).
    + rewrite fst_zip.
      * by apply allocateAll_NoDup.
      * unfold viewerNames.
        rewrite allocateAll_length, length_fmap, Hlen.
        apply Nat.eq_le_incl. symmetry. by eapply Forall2_length.
    + apply lookup_zip_with_Some. eauto.
  - destruct (Forall2_lookup_l _ _ _ _ _ Hall He) as (sch' & Hsch' & Hsec).
    destruct (getViewerOT_Some (BuiltType:=BuiltType) sanitize
                (nthViewerName
                   (baseViewerName sanitize isMutation (classify (def sch)))
                   (sameKindBefore schs i (classify (def sch))))
                e.1 (classify (def sch)) e.2 data oass sch' Hsec)
      as (td & d & Heq).
    rewrite Heq in Hget. by injection Hget as <-.
Qed.

(** X5. After the loop of [createAndLoadViewer] over protocols whose
    kinds do not name a property of [Object.prototype], the registry
    holds, for every kind that some protocol was classified to, the
    list [base], [base2], ..., [base]n of the names of the kind, where
    n is the number of protocols of the kind, and nothing for any other
    kind. *)
Theorem registry_after_loop isMutation oass
    (queryFields : JsObject.t (JsObject.t Field)) (schs : list Scheme) data :
  Forall2 (λ e sch, JsObject.get e.1 (security data) = Some sch)
    queryFields schs →
  Forall plainKind schs →
  ∃ (l : @Locals Field SchemaObject BuiltType Rest) data',
    forIn (viewerStep isMutation oass) queryFields
      (mkLocals JsObject.empty ∅ JsObject.empty) data = Some (l, data')
    ∧ ∀ type,
        usedViewerNames l !! type
        = if decide (type ∈ classify ∘ def <$> schs)
          then Some (nthViewerName (baseViewerName sanitize isMutation type)
                       <$> seq 0 (ofKind schs type))
          else None.
Proof.
  intros Hall Hplain.
  destruct (forIn_viewerFor_spec sanitize isMutation oass queryFields schs
              (mkLocals JsObject.empty ∅ JsObject.empty
                 : @Locals Field SchemaObject BuiltType Rest) data Hall Hplain)
    as (vs & _ & _ & Hloop). cbv zeta in Hloop. simpl in Hloop.
  eexists _, _. split; [exact Hloop|]. intros type. cbn [usedViewerNames].
  rewrite allocateAll_registry by apply numbered_empty.
  by rewrite lookup_empty.
Qed.

(** X6. The mode changes names only.  A run in mutation mode and a run
    in query mode leave [data] in the same state, and the AnyAuth
    viewer of the one is the AnyAuth viewer of the other up to the name
    of its type: same arguments (the types are built with
    [isMutation: true] in both modes), same resolver, same fields, same
    descriptions.  The same holds of the viewer [getViewerOT] builds
    under two names.  No kind is taken to name a property of
    [Object.prototype]. *)
Theorem mutation_mode_changes_names_only oass
    (queryFields : JsObject.t (JsObject.t Field)) (schs : list Scheme) data :
  Forall2 (λ e sch, JsObject.get e.1 (security data) = Some sch)
    queryFields schs →
  Forall plainKind schs →
  (∃ (resQuery resMutation : JsObject.t ViewerT) data' (anyAuth : ViewerT),
     createAndLoad queryFields false oass data = Some (resQuery, data')
     ∧ createAndLoad queryFields true oass data = Some (resMutation, data')
     ∧ JsObject.get "viewerAnyAuth" resQuery = Some anyAuth
     ∧ JsObject.get "mutationViewerAnyAuth" resMutation
       = Some (withTypeName "mutationViewerAnyAuth" anyAuth))
  ∧ (∀ name1 name2 protocolName type (protocolFields : JsObject.t Field)
       (viewer : ViewerT),
       getViewer name1 protocolName type protocolFields data oass
       = Some viewer →
       getViewer name2 protocolName type protocolFields data oass
       = Some (withTypeName name2 viewer)).
Proof.
  intros Hall Hplain. split; [|intros; by eapply getViewerOT_name].
  destruct (createAndLoadViewer_spec sanitize createDataDef getGraphQLType
              createDataDef_security getGraphQLType_security
              false oass queryFields schs data Hall Hplain)
    as (vsq & aq & dq & _ & _ & Haq & Hrq).
  destruct (createAndLoadViewer_spec sanitize createDataDef getGraphQLType
              createDataDef_security getGraphQLType_security
              true oass queryFields schs data Hall Hplain)
    as (vsm & am & dm & _ & _ & Ham & Hrm).
  cbv zeta in Hrq, Hrm.
  apply (getViewerAnyAuthOT_name _ (anyAuthObjectName true)) in Haq.
  rewrite Haq in Ham. injection Ham as <- <-.
  eexists _, _, dq, aq. split_and!; [exact Hrq|exact Hrm|..];
    apply JsObjectFacts.get_set_eq.
Qed.

(** X9. The two kinds of viewer agree: what the resolver of a
    per-protocol viewer returns for its arguments is what the resolver
    of the AnyAuth viewer returns when given these arguments under the
    sanitized name of the protocol, and that name is one of the
    argument names of the AnyAuth viewer. *)
Theorem resolvers_agree isMutation oass
    (queryFields : JsObject.t (JsObject.t Field)) data
    (res : JsObject.t ViewerT) data' name protocolName type
    (protocolFields : JsObject.t Field) (viewer : ViewerT) :
  createAndLoad queryFields isMutation oass data = Some (res, data') →
  getViewer name protocolName type protocolFields data oass = Some viewer →
  ∃ anyAuth : ViewerT,
    JsObject.get (anyAuthObjectName isMutation) res = Some anyAuth
    ∧ sanitize protocolName ∈ JsObject.keys (args anyAuth)
    ∧ ∀ root args ctx data1 root' ctx' data2,
        (resolve viewer root args ctx data1).1
        = (resolve anyAuth root'
             (JsObj [(sanitize protocolName, args)]) ctx' data2).1.
Proof.
  intros (schs & vs & anyAuth & _ & _ & _ & _ & Hany & ->)
    %createAndLoadViewer_inv Hv.
  exists anyAuth. rewrite JsObjectFacts.get_set_eq.
  destruct (JsObject.get protocolName (security data)) as [sch|] eqn:Hsch;
    [|by rewrite getViewerOT_None in Hv].
  split_and!; [done| |].
  - apply (elem_of_keys_anyAuth_args sanitize createDataDef getGraphQLType
             _ _ _ _ _ _ _ Hany).
    exists protocolName. split; [|done]. cbn [addWarnings security].
    apply JsObjectFacts.get_is_Some. by rewrite Hsch.
  - intros root args ctx data1 root' ctx' data2.
    destruct (getViewerOT_Some (BuiltType:=BuiltType) sanitize name
                protocolName type protocolFields data oass sch Hsch)
      as (td & d & Heq).
    rewrite Heq in Hv. injection Hv as <-.
    by apply getViewerAnyAuthOT_inv in Hany as (tys & _ & ->).
Qed.

(** X10. Without any security scheme, [createAndLoadViewer] on an
    empty [queryFields] returns the AnyAuth viewer alone, without
    arguments, and leaves [data] untouched; on any other [queryFields]
    it throws. *)
Theorem createAndLoadViewer_no_schemes isMutation oass data :
  security data = [] →
  (∃ anyAuth : ViewerT,
     createAndLoad [] isMutation oass data
     = Some ([(anyAuthObjectName isMutation, anyAuth)], data)
     ∧ args anyAuth = [])
  ∧ (∀ queryFields : JsObject.t (JsObject.t Field),
       queryFields ≠ [] →
       createAndLoad queryFields isMutation oass data = None).
Proof.
  intros Hsec. split.
  - unfold createAndLoadViewer, getViewerAnyAuthOT, bind, ret. simpl.
    rewrite Hsec. simpl. eexists. split; reflexivity.
  - intros [|[p f] qf] Hne; [done|].
    unfold createAndLoadViewer, bind.
    rewrite (forIn_viewerFor_undefined sanitize); [done|].
    exists p. split; [left|]. by rewrite Hsec.
Qed.

(** X11. Where several protocols were given the same viewer name, the
    viewer of the last of them is the one found under that name in the
    returned mapping, unless the name is the AnyAuth name: under that
    name the AnyAuth viewer is found, whatever the protocols were
    named.  No kind is taken to name a property of
    [Object.prototype]. *)
Theorem last_viewer_of_a_name_is_kept isMutation oass
    (queryFields : JsObject.t (JsObject.t Field)) (schs : list Scheme) data :
  Forall2 (λ e sch, JsObject.get e.1 (security data) = Some sch)
    queryFields schs →
  Forall plainKind schs →
  ∃ (res : JsObject.t ViewerT) data' (anyAuth : ViewerT),
    createAndLoad queryFields isMutation oass data = Some (res, data')
    ∧ getViewerAnyAuth (anyAuthObjectName isMutation)
        (foldl JsObject.assign JsObject.empty queryFields.*2) oass
        (addWarnings (unsupportedWarnings (def <$> schs)) data)
      = Some (anyAuth, data')
    ∧ JsObject.get (anyAuthObjectName isMutation) res = Some anyAuth
    ∧ ∀ i e sch viewerName,
        queryFields !! i = Some e → schs !! i = Some sch →
        names isMutation schs !! i = Some viewerName →
        viewerName ≠ anyAuthObjectName isMutation →
        (∀ j, i < j → names isMutation schs !! j ≠ Some viewerName) →
        is_Some (JsObject.get viewerName res)
        ∧ JsObject.get viewerName res
          = getViewer viewerName e.1 (classify (def sch)) e.2 data oass.
Proof.
  intros Hall Hplain.
  destruct (createAndLoadViewer_spec sanitize createDataDef getGraphQLType
              createDataDef_security getGraphQLType_security
              isMutation oass queryFields schs data Hall Hplain)
    as (vs & anyAuth & data' & Hlen & Hvs & Hany & Hrun).
  cbv zeta in Hlen, Hvs, Hrun.
  change ((allocateAll sanitize isMutation (classify ∘ def <$> schs) ∅).1)
    with (names isMutation schs) in Hvs, Hrun.
  eexists _, data', anyAuth.
  split_and!; [exact Hrun|exact Hany|apply JsObjectFacts.get_set_eq|].
  intros i e sch n He Hsch Hn Hne Hlast.
  destruct (lookup_lt_is_Some_2 vs i) as [v Hv].
  { rewrite Hlen. by eapply lookup_lt_Some. }
  rewrite (Hvs i e sch n v He Hsch Hn Hv).
  rewrite JsObjectFacts.get_set_ne by done.
  rewrite (get_foldl_set_last fst snd _ _ i (n, v)); [by split; [eexists|]|..].
  - apply lookup_zip_with_Some. eauto.
  - intros j [n' v'] Hij (? & ? & [= <- <-] & Hn' & _)%lookup_zip_with_Some.
    simpl. intros ->. by apply (Hlast j).
Qed.

(** *** The types of the AnyAuth arguments *)

(** One iteration of the loop over [data.security], for a protocol
    that has a scheme. *)
Lemma anyAuthArg_run oass (args : Args) protocolName data (sch : Scheme) :
  JsObject.get protocolName (security data) = Some sch →
  anyAuthStep oass args protocolName data
  = Some (JsObject.set (sanitize protocolName)
            (mkArgConfig (GraphQLBuilt (argType oass protocolName sch data)))
            args,
          argData oass protocolName sch data).
Proof.
  intros Hsch.
  unfold anyAuthArg, bind, defined, call, ret, anyAuthArgType, anyAuthArgData.
  rewrite Hsch.
  destruct (createDataDef protocolName (schema sch) true data) as [dd data1].
  by destruct (getGraphQLType dd oass true data1) as [ty data2].
Qed.

Lemma anyAuthArgData_security oass protocolName (sch : Scheme) data :
  security (argData oass protocolName sch data) = security data.
Proof.
  unfold anyAuthArgData.
  pose proof (createDataDef_security protocolName (schema sch) true data)
    as Hs1.
  destruct (createDataDef protocolName (schema sch) true data) as [dd data1].
  cbn [security registered]. rewrite getGraphQLType_security. exact Hs1.
Qed.

(** The loop over protocols that have the schemes [entries] pairs them
    with. *)
Lemma forIn_anyAuthArg_run oass (entries : list (string * Scheme))
    (args : Args) data :
  (∀ e, e ∈ entries → JsObject.get e.1 (security data) = Some e.2) →
  forIn (anyAuthStep oass) entries.*1 args data
  = Some (foldl (λ acc pt, JsObject.set (sanitize pt.1)
                             (mkArgConfig (GraphQLBuilt pt.2)) acc)
            args (zip entries.*1 (argTypes oass entries data)),
          before oass entries (length entries) data).
Proof.
  unfold dataBefore. rewrite firstn_all.
  revert args data. induction entries as [|[p sch] es IH]; intros args data Hall.
  - done.
  - cbn [fmap list_fmap forIn fst]. unfold bind at 1.
    rewrite (anyAuthArg_run oass args p data sch) by (apply (Hall (p, sch)); left).
    rewrite IH; [done|].
    intros e He. rewrite anyAuthArgData_security. apply Hall. by right.
Qed.

(** The type of the [i]-th iteration is the one returned in the state
    that the iterations before it left. *)
Lemma anyAuthArgTypes_lookup oass (entries : list (string * Scheme)) data i :
  argTypes oass entries data !! i
  = (λ e, argType oass e.1 e.2 (before oass entries i data)) <$> entries !! i.
Proof.
  unfold dataBefore. revert data i.
  induction entries as [|e es IH]; intros data [|i]; try done.
  cbn [anyAuthArgTypes]. simpl. apply IH.
Qed.

(** X12. Every argument of the AnyAuth viewer has, as it is, the type
    that [getGraphQLType] returned, called with [isMutation: true], for
    the data definition that [createDataDef] returned for the schema of
    a protocol of [data.security] with that sanitized name, in the
    state of [data] that the iterations before it left; unlike the
    arguments of a per-protocol viewer, none is wrapped in
    [GraphQLNonNull] here.  Where several protocols have the same
    sanitized name, the type for the last of them is the one kept. *)
Theorem anyAuth_args_types name (queryFields : JsObject.t Field) oass data
    (viewer : ViewerT) data' :
  JsObject.wf (security data) →
  getViewerAnyAuth name queryFields oass data = Some (viewer, data') →
  (∀ k arg,
     JsObject.get k (args viewer) = Some arg →
     ∃ i p (sch : Scheme),
       security data !! i = Some (p, sch) ∧ k = sanitize p
       ∧ arg_type arg
         = GraphQLBuilt (argType oass p sch (before oass (security data) i data)))
  ∧ (∀ i p (sch : Scheme),
       security data !! i = Some (p, sch) →
       (∀ j e, i < j → security data !! j = Some e →
               sanitize e.1 ≠ sanitize p) →
       JsObject.get (sanitize p) (args viewer)
       = Some (mkArgConfig
                 (GraphQLBuilt
                    (argType oass p sch (before oass (security data) i data)))))
  ∧ data' = before oass (security data) (length (security data)) data.
Proof.
  intros Hwf Hv. unfold getViewerAnyAuthOT, bind, ret in Hv.
  unfold JsObject.keys in Hv.
  rewrite (forIn_anyAuthArg_run oass (security data)) in Hv; last first.
  { intros [p sch] He. by apply JsObjectFacts.get_elem_of. }
  injection Hv as <- <-. cbn [args].
  set (tys := argTypes oass (security data) data).
  assert (JsObject.wf
            (foldl (λ acc (pt : string * BuiltType),
                      JsObject.set (sanitize pt.1)
                        (mkArgConfig (GraphQLBuilt pt.2)) acc)
               JsObject.empty (zip (security data).*1 tys))) as Hwfargs.
  { apply (JsObjectFacts.wf_foldl_set (λ pt, sanitize pt.1)
             (λ pt, mkArgConfig (GraphQLBuilt pt.2))).
    apply NoDup_nil_2. }
  assert (∀ i p ty,
            zip (security data).*1 tys !! i = Some (p, ty) →
            ∃ sch : Scheme,
              security data !! i = Some (p, sch)
              ∧ ty = argType oass p sch (before oass (security data) i data))
    as Hzip.
  { intros i p ty (p' & ty' & [= <- <-] & Hp & Hty)%lookup_zip_with_Some.
    rewrite list_lookup_fmap in Hp. subst tys.
    rewrite anyAuthArgTypes_lookup in Hty.
    apply fmap_Some in Hp as ([p0 sch] & Hi & ->). rewrite Hi in Hty.
    simpl in Hty. injection Hty as <-. by exists sch. }
  split_and!; [| |done].
  - intros k arg. rewrite get_sortObject by done. revert k arg.
    apply (foldl_set_invariant
             (λ k arg, ∃ i p (sch : Scheme),
                security data !! i = Some (p, sch) ∧ k = sanitize p
                ∧ arg_type arg
                  = GraphQLBuilt
                      (argType oass p sch (before oass (security data) i data)))
             (λ pt, sanitize pt.1) (λ pt, mkArgConfig (GraphQLBuilt pt.2))).
    + intros k arg [=].
    + intros [p ty] (i & Hi)%list_elem_of_lookup.
      destruct (Hzip i p ty Hi) as (sch & Hsch & ->).
      by exists i, p, sch.
  - intros i p sch Hi Hlast. rewrite get_sortObject by done.
    apply (get_foldl_set_last (λ pt, sanitize pt.1)
             (λ pt, mkArgConfig (GraphQLBuilt pt.2)) _ _ i
             (p, argType oass p sch (before oass (security data) i data))).
    + apply lookup_zip_with_Some. eexists _, _. split_and!; [done| |].
      * rewrite list_lookup_fmap. apply fmap_Some. by exists (p, sch).
      * subst tys. rewrite anyAuthArgTypes_lookup. apply fmap_Some.
        by exists (p, sch).
    + intros j [p' ty'] Hij Hj.
      destruct (Hzip j p' ty' Hj) as (sch' & Hsch' & _).
      exact (Hlast j (p', sch') Hij Hsch').
Qed.

End more_viewers.

(** ** The further properties on concrete inputs *)

Lemma Shared_schemes :
  Forall2 (λ (e : string * JsObject.t nat) sch,
             JsObject.get e.1 (security (Example.data Shared.security))
             = Some sch)
    Shared.queryFields Shared.security.*2.
Proof. repeat constructor. Defined.

Lemma createAndLoadViewer_returns_iff_witness :
  is_Some (Shared.createAndLoadViewer Shared.queryFields false [Example.oas]
             (Example.data Shared.security))
  ∧ Shared.createAndLoadViewer Shared.queryFieldsUndeclared false
      [Example.oas] (Example.data Shared.security) = None
  ∧ Example.createAndLoadViewer Example.queryFields5 false [Example.oas]
      (Example.data Example.security5) = None.
Proof.
  split_and!.
  - apply (proj2 (@createAndLoadViewer_returns_iff nat unit string string unit
                    camelCaseSanitize Example.createDataDef
                    Example.getGraphQLType Example_createDataDef_security
                    Example_getGraphQLType_security false [Example.oas]
                    Shared.queryFields (Example.data Shared.security))).
    intros p Hp.
    repeat (apply elem_of_cons in Hp as [->|Hp];
            [eexists; split;
               [reflexivity|apply (bool_decide_unpack _); by vm_compute]|]).
    by apply elem_of_nil in Hp.
  - apply eq_None_not_Some. intros Hsome.
    destruct (proj1 (@createAndLoadViewer_returns_iff nat unit string string
                       unit camelCaseSanitize Example.createDataDef
                       Example.getGraphQLType Example_createDataDef_security
                       Example_getGraphQLType_security false [Example.oas]
                       Shared.queryFieldsUndeclared
                       (Example.data Shared.security)) Hsome "key9")
      as (sch & Hsch & _); [|discriminate Hsch].
    right. left.
  - apply eq_None_not_Some. intros Hsome.
    destruct (proj1 (@createAndLoadViewer_returns_iff unit unit string string
                       unit camelCaseSanitize Example.createDataDef
                       Example.getGraphQLType Example_createDataDef_security
                       Example_getGraphQLType_security false [Example.oas]
                       Example.queryFields5
                       (Example.data Example.security5)) Hsome "odd")
      as (sch & Hsch & Hplain); [right; left|].
    injection Hsch as <-. apply Hplain.
    apply (bool_decide_unpack _). by vm_compute.
Defined.

Lemma results_keyed_by_type_name_witness :
  ∃ (res : JsObject.t (@Viewer unit unit string unit)) data',
    Example.createAndLoadViewer Example.queryFields2 false [Example.oas]
      (Example.data Example.security2) = Some (res, data')
    ∧ JsObject.keys res = ["viewerApiKey"; "viewerApiKey2"; "viewerAnyAuth"]
    ∧ ∀ k viewer,
        JsObject.get k res = Some viewer → name (viewer_type viewer) = k.
Proof.
  destruct (@createAndLoadViewer unit unit string string unit
              camelCaseSanitize Example.createDataDef Example.getGraphQLType
              Example.queryFields2 false [Example.oas]
              (Example.data Example.security2))
    as [[res data']|] eqn:Hrun; [|by vm_compute in Hrun].
  exists res, data'. split_and!; [exact Hrun| |].
  - pose proof (f_equal (fmap (λ rd : _ * Example.Data, JsObject.keys rd.1))
                  Hrun) as Hk.
    vm_compute in Hk. injection Hk as Hk. symmetry. exact Hk.
  - exact (@results_keyed_by_type_name unit unit string string unit
             camelCaseSanitize Example.createDataDef Example.getGraphQLType
             false [Example.oas] Example.queryFields2
             (Example.data Example.security2) res data' Hrun).
Defined.

Lemma viewer_found_under_numbered_name_witness :
  Forall2 (λ (e : string * JsObject.t unit) sch,
             JsObject.get e.1 (security (Example.data Example.security1))
             = Some sch)
    Example.queryFields1 Example.schemes1
  ∧ Forall plainKind Example.schemes1
  ∧ kindsSeparated camelCaseSanitize false
      (classify ∘ def <$> Example.schemes1)
  ∧ ∃ (res : JsObject.t (@Viewer unit unit string unit)) data'
      (viewer : @Viewer unit unit string unit),
      Example.createAndLoadViewer Example.queryFields1 false [Example.oas]
        (Example.data Example.security1) = Some (res, data')
      ∧ JsObject.get "viewerApiKey3" res = Some viewer
      ∧ getViewerOT camelCaseSanitize "viewerApiKey3" "key3" "apiKey"
          [("getE", tt)] (Example.data Example.security1) [Example.oas]
        = Some viewer
      ∧ fields (viewer_type viewer) () = [("getE", tt)].
Proof.
  split_and!; [exact Example_schemes1|exact Example_schemes1_plainKind
              |exact Example_kinds1_separated|].
  destruct (@viewer_found_under_numbered_name unit unit string string unit
              camelCaseSanitize Example.createDataDef Example.getGraphQLType
              Example_createDataDef_security Example_getGraphQLType_security
              false [Example.oas] Example.queryFields1 Example.schemes1
              (Example.data Example.security1) Example_schemes1
              Example_schemes1_plainKind
              Example_kinds1_separated) as (res & data' & Hrun & Hfind).
  destruct (Hfind 4 ("key3", [("getE", tt)])
              (Example.entry "key3" "apiKey" None [("apiKey", "key3_apiKey")])
              eq_refl eq_refl) as (viewer & Hget & Hbuilt & Hfields).
  exists res, data', viewer.
  split_and!; [exact Hrun|exact Hget|exact Hbuilt|exact Hfields].
Defined.

Lemma anyAuth_fields_merged_witness :
  Forall JsObject.wf Shared.queryFields.*2
  ∧ ∃ (res : JsObject.t (@Viewer nat unit string unit)) data'
      (anyAuth : @Viewer nat unit string unit),
      Shared.createAndLoadViewer Shared.queryFields false [Example.oas]
        (Example.data Shared.security) = Some (res, data')
      ∧ JsObject.get "viewerAnyAuth" res = Some anyAuth
      ∧ fields (viewer_type anyAuth) () = [("getA", 1); ("getB", 3)]
      ∧ JsObject.get "getB" (fields (viewer_type anyAuth) ()) = Some 3.
Proof.
  assert (Forall JsObject.wf Shared.queryFields.*2) as Hwf.
  { repeat constructor; unfold JsObject.wf; apply (bool_decide_unpack _);
      by vm_compute. }
  split; [exact Hwf|].
  destruct (@createAndLoadViewer nat unit string string unit
              camelCaseSanitize Example.createDataDef Example.getGraphQLType
              Shared.queryFields false [Example.oas]
              (Example.data Shared.security))
    as [[res data']|] eqn:Hrun; [|by vm_compute in Hrun].
  destruct (@anyAuth_fields_merged nat unit string string unit
              camelCaseSanitize Example.createDataDef Example.getGraphQLType
              false [Example.oas] Shared.queryFields
              (Example.data Shared.security) res data' Hrun Hwf)
    as (anyAuth & Hget & Hfields & _ & Hlast).
  exists res, data', anyAuth.
  split_and!; [exact Hrun|exact Hget|exact Hfields|].
  apply (Hlast [("key1", [("getA", 1); ("getB", 2)])] "basic" [("getB", 3)] []);
    [reflexivity|reflexivity|constructor].
Defined.

Lemma registry_after_loop_witness :
  Forall2 (λ (e : string * JsObject.t unit) sch,
             JsObject.get e.1 (security (Example.data Example.security1))
             = Some sch)
    Example.queryFields1 Example.schemes1
  ∧ Forall plainKind Example.schemes1
  ∧ ∃ (l : @Locals unit unit string unit) data',
      forIn (viewerFor camelCaseSanitize false [Example.oas])
        Example.queryFields1 (mkLocals JsObject.empty ∅ JsObject.empty)
        (Example.data Example.security1) = Some (l, data')
      ∧ usedViewerNames l !! "apiKey"
        = Some ["viewerApiKey"; "viewerApiKey2"; "viewerApiKey3"]
      ∧ usedViewerNames l !! "oauth2" = None.
Proof.
  split_and!; [exact Example_schemes1|exact Example_schemes1_plainKind|].
  destruct (@registry_after_loop unit unit string unit camelCaseSanitize
              false [Example.oas] Example.queryFields1 Example.schemes1
              (Example.data Example.security1) Example_schemes1
              Example_schemes1_plainKind)
    as (l & data' & Hloop & Hreg).
  exists l, data'. split_and!; [exact Hloop|exact (Hreg "apiKey")|].
  exact (Hreg "oauth2").
Defined.

Lemma mutation_mode_changes_names_only_witness :
  Forall2 (λ (e : string * JsObject.t unit) sch,
             JsObject.get e.1 (security (Example.data Example.security1))
             = Some sch)
    Example.queryFields1 Example.schemes1
  ∧ Forall plainKind Example.schemes1
  ∧ ∃ (resQuery resMutation : JsObject.t (@Viewer unit unit string unit))
      data' (anyAuth : @Viewer unit unit string unit),
      Example.createAndLoadViewer Example.queryFields1 false [Example.oas]
        (Example.data Example.security1) = Some (resQuery, data')
      ∧ Example.createAndLoadViewer Example.queryFields1 true [Example.oas]
          (Example.data Example.security1) = Some (resMutation, data')
      ∧ JsObject.get "viewerAnyAuth" resQuery = Some anyAuth
      ∧ JsObject.get "mutationViewerAnyAuth" resMutation
        = Some (withTypeName "mutationViewerAnyAuth" anyAuth).
Proof.
  split_and!; [exact Example_schemes1|exact Example_schemes1_plainKind|].
  exact (proj1 (@mutation_mode_changes_names_only unit unit string string
                  unit camelCaseSanitize Example.createDataDef
                  Example.getGraphQLType Example_createDataDef_security
                  Example_getGraphQLType_security [Example.oas]
                  Example.queryFields1 Example.schemes1
                  (Example.data Example.security1) Example_schemes1
                  Example_schemes1_plainKind)).
Defined.


Lemma resolve_twice_witness :
  ∃ viewer : @Viewer unit unit string unit,
    getViewerOT camelCaseSanitize "viewerApiKey" "api-key" "apiKey"
      [("getA", tt)] (Example.data Example.security3) [Example.oas]
    = Some viewer
    ∧ ∀ root1 args1 ctx1 root2 args2 ctx2 (data1 : Example.Data),
        resolve viewer root2 args2 ctx2
          (resolve viewer root1 args1 ctx1 data1).2
        = (securityContext (JsObj [("apiKey", args2)]),
           (resolve viewer root1 args1 ctx1 data1).2).
Proof.
  destruct (getViewerOT camelCaseSanitize "viewerApiKey" "api-key" "apiKey"
              [("getA", tt)] (Example.data Example.security3) [Example.oas])
    as [viewer|] eqn:Hv; [|discriminate Hv].
  exists viewer. split; [reflexivity|].
  exact (@resolve_twice unit unit string unit camelCaseSanitize
           "viewerApiKey" "api-key" "apiKey" [("getA", tt)]
           (Example.data Example.security3) [Example.oas] viewer Hv).
Defined.

Lemma resolvers_agree_witness :
  ∃ (res : JsObject.t (@Viewer unit unit string unit)) data'
    (viewer anyAuth : @Viewer unit unit string unit),
    Example.createAndLoadViewer Example.queryFields1 false [Example.oas]
      (Example.data Example.security1) = Some (res, data')
    ∧ getViewerOT camelCaseSanitize "viewerBasicAuth" "basic" "basicAuth"
        [("getB", tt)] (Example.data Example.security1) [Example.oas]
      = Some viewer
    ∧ JsObject.get "viewerAnyAuth" res = Some anyAuth
    ∧ "basic" ∈ JsObject.keys (args anyAuth)
    ∧ ∀ root args ctx data1 root' ctx' data2,
        (resolve viewer root args ctx data1).1
        = (resolve anyAuth root' (JsObj [("basic", args)]) ctx' data2).1.
Proof.
  destruct (@createAndLoadViewer unit unit string string unit
              camelCaseSanitize Example.createDataDef Example.getGraphQLType
              Example.queryFields1 false [Example.oas]
              (Example.data Example.security1))
    as [[res data']|] eqn:Hrun; [|by vm_compute in Hrun].
  destruct (getViewerOT camelCaseSanitize "viewerBasicAuth" "basic"
              "basicAuth" [("getB", tt)] (Example.data Example.security1)
              [Example.oas]) as [viewer|] eqn:Hv; [|discriminate Hv].
  destruct (@resolvers_agree unit unit string string unit camelCaseSanitize
              Example.createDataDef Example.getGraphQLType false
              [Example.oas] Example.queryFields1
              (Example.data Example.security1) res data' "viewerBasicAuth"
              "basic" "basicAuth" [("getB", tt)] viewer Hrun Hv)
    as (anyAuth & Hget & Hkey & Hagree).
  exists res, data', viewer, anyAuth.
  split_and!; [exact Hrun|reflexivity|exact Hget|exact Hkey|exact Hagree].
Defined.

Lemma createAndLoadViewer_no_schemes_witness :
  security (Example.data []) = []
  ∧ (∃ anyAuth : @Viewer unit unit string unit,
       Example.createAndLoadViewer [] true [Example.oas] (Example.data [])
       = Some ([("mutationViewerAnyAuth", anyAuth)], Example.data [])
       ∧ args anyAuth = [])
  ∧ Example.createAndLoadViewer Example.queryFields1' true [Example.oas]
      (Example.data []) = None.
Proof.
  destruct (@createAndLoadViewer_no_schemes unit unit string string unit
              camelCaseSanitize Example.createDataDef Example.getGraphQLType
              true [Example.oas] (Example.data []) eq_refl)
    as [Hempty Hthrows].
  split_and!; [reflexivity|exact Hempty|].
  by apply Hthrows.
Defined.

Lemma last_viewer_of_a_name_is_kept_witness :
  Forall2 (λ (e : string * JsObject.t unit) sch,
             JsObject.get e.1 (security (Example.data Example.security2))
             = Some sch)
    Example.queryFields2 Example.security2.*2
  ∧ Forall plainKind Example.security2.*2
  ∧ viewerNames camelCaseSanitize false Example.security2.*2
    = ["viewerApiKey"; "viewerApiKey2"; "viewerApiKey2"; "viewerAnyAuth"]
  ∧ ∃ (res : JsObject.t (@Viewer unit unit string unit)) data'
      (anyAuth : @Viewer unit unit string unit),
      Example.createAndLoadViewer Example.queryFields2 false [Example.oas]
        (Example.data Example.security2) = Some (res, data')
      ∧ JsObject.get "viewerAnyAuth" res = Some anyAuth
      ∧ fields (viewer_type anyAuth) ()
        = [("getA", tt); ("getB", tt); ("getC", tt); ("getD", tt)]
      ∧ is_Some (JsObject.get "viewerApiKey2" res)
      ∧ JsObject.get "viewerApiKey2" res
        = getViewerOT camelCaseSanitize "viewerApiKey2" "c" "apiKey2"
            [("getC", tt)] (Example.data Example.security2) [Example.oas].
Proof.
  assert (Forall2 (λ (e : string * JsObject.t unit) sch,
             JsObject.get e.1 (security (Example.data Example.security2))
             = Some sch)
    Example.queryFields2 Example.security2.*2) as Hall by repeat constructor.
  assert (Forall plainKind Example.security2.*2) as Hplain.
  { apply (bool_decide_unpack _). by vm_compute. }
  split_and!; [exact Hall|exact Hplain|by vm_compute|].
  destruct (@last_viewer_of_a_name_is_kept unit unit string string unit
              camelCaseSanitize Example.createDataDef Example.getGraphQLType
              Example_createDataDef_security Example_getGraphQLType_security
              false [Example.oas] Example.queryFields2 Example.security2.*2
              (Example.data Example.security2) Hall Hplain)
    as (res & data' & anyAuth & Hrun & Hany & Hget & Hlast).
  exists res, data', anyAuth.
  split; [exact Hrun|]. split; [exact Hget|]. split.
  - destruct (getViewerAnyAuthOT_inv _ _ _ _ _ _ _ _ _ Hany) as (tys & _ & ->).
    reflexivity.
  - apply (Hlast 2 ("c", [("getC", tt)])
             (Example.entry "c" "apiKey2" None []) "viewerApiKey2");
      [reflexivity|reflexivity|by vm_compute|discriminate|].
    intros [|[|[|[|j]]]] Hj; try lia; by vm_compute.
Defined.

Lemma anyAuth_args_types_witness :
  JsObject.wf (security (Example.data Example.security3))
  ∧ ∃ (viewer : @Viewer unit unit string unit) data',
      getViewerAnyAuthOT camelCaseSanitize Example.createDataDef
        Example.getGraphQLType "viewerAnyAuth" [("getA", tt)] [Example.oas]
        (Example.data Example.security3) = Some (viewer, data')
      ∧ JsObject.get "apiKey" (args viewer)
        = Some (mkArgConfig (GraphQLBuilt "api.key"))
      ∧ saneMap data' = {["apiKey" := "api.key"]}.
Proof.
  assert (JsObject.wf (security (Example.data Example.security3))) as Hwf.
  { unfold JsObject.wf. apply (bool_decide_unpack _). by vm_compute. }
  split; [exact Hwf|].
  destruct (getViewerAnyAuthOT camelCaseSanitize Example.createDataDef
              Example.getGraphQLType "viewerAnyAuth" [("getA", tt)]
              [Example.oas] (Example.data Example.security3))
    as [[viewer data']|] eqn:Hv; [|discriminate Hv].
  exists viewer, data'.
  destruct (@anyAuth_args_types unit unit string string unit
              camelCaseSanitize Example.createDataDef Example.getGraphQLType
              Example_createDataDef_security Example_getGraphQLType_security
              "viewerAnyAuth" [("getA", tt)] [Example.oas]
              (Example.data Example.security3) viewer data' Hwf Hv)
    as (_ & Hlast & Hdata).
  split_and!; [reflexivity| |].
  - apply (Hlast 1 "api.key"
             (Example.entry "api.key" "apiKey" None
                [("apiKey", "api_key_apiKey")])); [reflexivity|].
    intros [|[|j]] e Hij He; try lia. discriminate He.
  - rewrite Hdata. by vm_compute.
Defined.
